(** * list_notebooks.py: a two-call JSON-RPC session over a subprocess's pipes

    A shallow embedding of [src/list_notebooks.py].  The script spawns an MCP
    server, writes an [initialize] request, reads lines until the reply with
    id 1, writes a [tools/call] request, reads lines until the reply with
    id 2, prints the [text] of every content item of that reply, and in a
    [finally] block terminates the server and waits for it.

    What the script does with a decoded line is modelled in full: truth value
    testing ([if not resp]), [dict.get] with its default and its
    [AttributeError] on anything that is not a dict, [==] against an [int],
    iteration with its [TypeError].  What the libraries do is represented by
    its outcome: a line of the server's output is given by whether
    [readline()] returns it (it raises [ValueError] on a line longer than the
    stream's limit) and by what [json.loads(line.decode())] makes of it, a
    [drain()] by whether it raises, the spawn by whether it raises, and
    [terminate()] by whether it raises (it raises [ProcessLookupError] once
    the child has exited and its transport is finished).  [wait()] and
    [print] are taken not to raise.  A server that neither answers nor closes
    its output (a read that blocks for ever) is outside the model: the output
    is a finite list of lines followed by end-of-file. *)

From Stdlib Require Import List ZArith String Bool SpecFloat.
Import ListNotations.
Local Open Scope string_scope.
Local Open Scope list_scope.
Local Open Scope Z_scope.

(** ** Python values, as [json.loads] produces them *)

Module Py.

(** A [dict] is an association list in insertion order; each key of a decoded
    JSON object occurs once, and [lookup] takes the first binding of a key. *)
#[warnings="-register-all"]
Inductive value : Type :=
  | PNone
  | PBool (b : bool)
  | PInt (z : Z)
  | PFloat (f : spec_float)
  | PStr (s : string)
  | PList (items : list value)
  | PDict (fields : list (string * value)).

Inductive exn : Type :=
  | FileNotFoundError
  | PermissionError
  | BrokenPipeError
  | ConnectionResetError
  | UnicodeDecodeError
  | JSONDecodeError
  | AttributeError
  | TypeError
  | ValueError
  | ProcessLookupError.

Fixpoint lookup (k : string) (fields : list (string * value)) : option value :=
  match fields with
  | [] => None
  | (k', v) :: rest => if String.eqb k k' then Some v else lookup k rest
  end.

(** [bool(v)], the test behind [if not resp]. *)
Definition truthy (v : value) : bool :=
  match v with
  | PNone => false
  | PBool b => b
  | PInt z => negb (z =? 0)
  | PFloat (S754_zero _) => false
  | PFloat _ => true
  | PStr s => negb (String.eqb s "")
  | PList items => match items with [] => false | _ => true end
  | PDict fields => match fields with [] => false | _ => true end
  end.

(** [f == n] for a float [f] and an int [n]: Python compares the two exactly.
    A finite float is [(-1)^s * m * 2^e]. *)
Definition float_eq_int (f : spec_float) (n : Z) : bool :=
  match f with
  | S754_zero _ => n =? 0
  | S754_infinity _ => false
  | S754_nan => false
  | S754_finite s m e =>
      let v := if s then Z.neg m else Z.pos m in
      if 0 <=? e then v * 2 ^ e =? n else v =? n * 2 ^ (- e)
  end.

(** [v == n] for an int literal [n]: [bool] is a subclass of [int], a float
    is compared by value, anything else is unequal. *)
Definition eq_int (v : value) (n : Z) : bool :=
  match v with
  | PBool b => Z.b2z b =? n
  | PInt z => z =? n
  | PFloat f => float_eq_int f n
  | _ => false
  end.

(** [iter(v)], as a [for] loop sees it: a list gives its items, a dict its
    keys, a str its characters; the rest is not iterable. *)
Fixpoint chars (s : string) : list value :=
  match s with
  | EmptyString => []
  | String c rest => PStr (String c EmptyString) :: chars rest
  end.

Definition iter (v : value) : exn + list value :=
  match v with
  | PList items => inr items
  | PDict fields => inr (map (fun kv => PStr (fst kv)) fields)
  | PStr s => inr (chars s)
  | _ => inl TypeError
  end.

End Py.
Import Py.

(** ** The subprocess, seen from the client *)

(** One line of the server's output, by what [readline()] and
    [json.loads(line.decode())] make of it. *)
Inductive line : Type :=
  | Json (v : value)     (* [readline()] returns it and it decodes to [v] *)
  | NotUtf8              (* [readline()] returns it, [line.decode()] raises *)
  | NotJson              (* [readline()] returns it, [json.loads] raises *)
  | TooLong.             (* longer than the stream's limit: [readline()] raises *)

Inductive read : Type :=
  | RdEof                (* [readline()] returned [b""] *)
  | RdLine (l : line).

Inductive event : Type :=
  | EvSpawn              (* [asyncio.create_subprocess_exec(...)] *)
  | EvWrite (msg : value) (* [process.stdin.write((json.dumps(msg) + "\n").encode())] *)
  | EvDrain              (* [process.stdin.drain()] *)
  | EvReadline (r : read) (* [process.stdout.readline()] and what it returned *)
  | EvPrint (v : value)  (* [print(v)] *)
  | EvTerminate          (* [process.terminate()] *)
  | EvWait.              (* [process.wait()] *)

(** The pipes of a running server: what the successive [drain()] calls will
    do ([None]: return; past the end of the list they return), and the lines
    still to be read, after which [readline()] is at end-of-file. *)
Record pipes : Type := mkPipes {
  drains : list (option exn);
  stdout : list line
}.

(** The environment of one run: whether the spawn raises, the pipes of the
    server if it does not, and whether [process.terminate()] raises when the
    [finally] block calls it ([None]: it returns). *)
Record env : Type := mkEnv {
  spawn : option exn;
  server : pipes;
  terminate : option exn
}.

(** ** Computations: state, exceptions and a log of events *)

Inductive res (A : Type) : Type :=
  | Ok (a : A)
  | Raise (e : exn)
  | OutOfFuel.
Arguments Ok {A} a.
Arguments Raise {A} e.
Arguments OutOfFuel {A}.

Definition M (A : Type) : Type := pipes -> res A * pipes * list event.

Definition ret {A} (a : A) : M A := fun p => (Ok a, p, []).

Definition raise {A} (e : exn) : M A := fun p => (Raise e, p, []).

Definition bind {A B} (m : M A) (k : A -> M B) : M B :=
  fun p =>
    match m p with
    | (Ok a, p1, t1) =>
        match k a p1 with
        | (r, p2, t2) => (r, p2, t1 ++ t2)
        end
    | (Raise e, p1, t1) => (Raise e, p1, t1)
    | (OutOfFuel, p1, t1) => (OutOfFuel, p1, t1)
    end.

Definition emit (e : event) : M unit := fun p => (Ok tt, p, [e]).

Declare Scope py_scope.
Delimit Scope py_scope with py.
Notation "x <- m ;; k" := (bind m (fun x => k))
  (at level 61, m at next level, right associativity) : py_scope.
Notation "m ;; k" := (bind m (fun _ => k))
  (at level 61, right associativity) : py_scope.
Local Open Scope py_scope.

(** [try: body finally: fin].  The handler runs whether [body] returned or
    raised; if the handler raises, that exception replaces the outcome. *)
Definition try_finally {A} (body : M A) (fin : M unit) : M A :=
  fun p =>
    match body p with
    | (OutOfFuel, p1, t1) => (OutOfFuel, p1, t1)
    | (r, p1, t1) =>
        match fin p1 with
        | (Ok _, p2, t2) => (r, p2, t1 ++ t2)
        | (Raise e, p2, t2) => (Raise e, p2, t1 ++ t2)
        | (OutOfFuel, p2, t2) => (OutOfFuel, p2, t1 ++ t2)
        end
    end.

(** [while True: body], where the body ends in [break] (with the value the
    loop leaves behind) or falls through to the next iteration. *)
Inductive ctl (A : Type) : Type :=
  | Break (a : A)
  | Continue.
Arguments Break {A} a.
Arguments Continue {A}.

Fixpoint while_true {A} (fuel : nat) (body : M (ctl A)) : M A :=
  match fuel with
  | O => fun p => (OutOfFuel, p, [])
  | S fuel' =>
      c <- body ;;
      match c with
      | Break a => ret a
      | Continue => while_true fuel' body
      end
  end.

(** [for x in xs: body x]. *)
Fixpoint for_each (xs : list value) (body : value -> M unit) : M unit :=
  match xs with
  | [] => ret tt
  | x :: rest => body x ;; for_each rest body
  end.

(** [obj.get(key, default)]: [dict.get] on a dict, [AttributeError] on any
    other value the decoder can produce. *)
Definition get (obj : value) (key : string) (default : value) : M value :=
  match obj with
  | PDict fields =>
      match lookup key fields with
      | Some v => ret v
      | None => ret default
      end
  | _ => raise AttributeError
  end.

Definition iterate (v : value) : M (list value) :=
  match iter v with
  | inr items => ret items
  | inl e => raise e
  end.

(** ** The script *)

(** [process.stdin.drain()]: takes the next outcome off [drains]. *)
Definition drain : M unit :=
  fun p =>
    match drains p with
    | [] => (Ok tt, p, [EvDrain])
    | None :: ds => (Ok tt, mkPipes ds (stdout p), [EvDrain])
    | Some e :: ds => (Raise e, mkPipes ds (stdout p), [EvDrain])
    end.

(** Lines 17-19. *)
Definition send_msg (msg : value) : M unit :=
  emit (EvWrite msg) ;;
  drain.

(** [process.stdout.readline()].  On a line over the limit it raises
    [ValueError] and the line is dropped from the buffer. *)
Definition readline : M read :=
  fun p =>
    match stdout p with
    | [] => (Ok RdEof, p, [EvReadline RdEof])
    | TooLong :: rest =>
        (Raise ValueError, mkPipes (drains p) rest, [EvReadline (RdLine TooLong)])
    | l :: rest => (Ok (RdLine l), mkPipes (drains p) rest, [EvReadline (RdLine l)])
    end.

(** What [json.loads(line.decode())] raises on a line that was read. *)
Definition decode_error (l : line) : option exn :=
  match l with
  | Json _ => None
  | NotUtf8 => Some UnicodeDecodeError
  | NotJson => Some JSONDecodeError
  | TooLong => None
  end.

(** What [read_msg] raises on a line. *)
Definition read_error (l : line) : option exn :=
  match l with
  | TooLong => Some ValueError
  | _ => decode_error l
  end.

(** Lines 21-24.  End-of-file gives [None], which is also what the JSON
    document [null] decodes to. *)
Definition read_msg : M value :=
  r <- readline ;;
  match r with
  | RdEof => ret PNone
  | RdLine (Json v) => ret v
  | RdLine NotUtf8 => raise UnicodeDecodeError
  | RdLine NotJson => raise JSONDecodeError
  | RdLine TooLong => raise ValueError
  end.

(** Lines 28-37. *)
Definition init_request : value :=
  PDict [("jsonrpc", PStr "2.0");
         ("id", PInt 1);
         ("method", PStr "initialize");
         ("params", PDict [("protocolVersion", PStr "2024-11-05");
                           ("capabilities", PDict []);
                           ("clientInfo", PDict [("name", PStr "test-client");
                                                 ("version", PStr "1.0.0")])])].

(** Lines 47-55. *)
Definition tool_request : value :=
  PDict [("jsonrpc", PStr "2.0");
         ("id", PInt 2);
         ("method", PStr "tools/call");
         ("params", PDict [("name", PStr "notebook_list");
                           ("arguments", PDict [])])].

(** One iteration of the read loops (lines 41-44 and 59-61, 66):
    [resp = await read_msg(); if not resp: break;
     if resp.get("id") == expected: ...; break]. *)
Definition await_step (expected : Z) : M (ctl (option value)) :=
  resp <- read_msg ;;
  if negb (truthy resp) then ret (Break None)
  else
    id <- get resp "id" PNone ;;
    if eq_int id expected then ret (Break (Some resp))
    else ret Continue.

(** The read loop, which the script has twice (lines 40-44 with 1, lines
    58-66 with 2).  It leaves the matched response, or [None] when it was
    left through [if not resp: break].  Every iteration but the last takes a
    line off [stdout], so one more round than there are lines is enough. *)
Definition await_response (expected : Z) : M (option value) :=
  fun p => while_true (S (List.length (stdout p))) (await_step expected) p.

(** Lines 62-65, the body of [if resp.get("id") == 2:]. *)
Definition print_content (resp : value) : M unit :=
  result <- get resp "result" (PDict []) ;;
  content <- get result "content" (PList []) ;;
  items <- iterate content ;;
  for_each items (fun item =>
    text <- get item "text" (PStr "") ;;
    emit (EvPrint text)).

(** Lines 58-66, the second loop.  In the script the printing sits inside
    the loop, directly before its [break]. *)
Definition read_tool_response : M unit :=
  resp <- await_response 2 ;;
  match resp with
  | Some r => print_content r
  | None => ret tt
  end.

(** Lines 27-66, the body of the [try]. *)
Definition exchange : M unit :=
  send_msg init_request ;;
  _ <- await_response 1 ;;
  send_msg tool_request ;;
  read_tool_response.

(** [process.terminate()]: [gone] is what it raises, if it does. *)
Definition process_terminate (gone : option exn) : M unit :=
  fun p =>
    match gone with
    | None => (Ok tt, p, [EvTerminate])
    | Some e => (Raise e, p, [EvTerminate])
    end.

(** Lines 69-70, the body of the [finally]. *)
Definition cleanup (gone : option exn) : M unit :=
  process_terminate gone ;;
  emit EvWait.

(** Lines 26-70, the [try] statement. *)
Definition session (gone : option exn) : M unit :=
  try_finally exchange (cleanup gone).

(** Lines 6-70.  A failed spawn raises before [process] is bound and before
    the [try] is entered. *)
Definition list_notebooks (world : env) : res unit * list event :=
  match spawn world with
  | Some e => (Raise e, [EvSpawn])
  | None =>
      match session (terminate world) (server world) with
      | (r, _, t) => (r, EvSpawn :: t)
      end
  end.

(** What a run printed, in order. *)
Fixpoint printed (t : list event) : list value :=
  match t with
  | [] => []
  | EvPrint v :: rest => v :: printed rest
  | _ :: rest => printed rest
  end.

(** [print(s)] for a str writes its characters and a newline; what the
    printed values put on the standard output when all of them are strs. *)
Definition newline : string := String (Ascii.ascii_of_nat 10) EmptyString.

Fixpoint output (vs : list value) : option string :=
  match vs with
  | [] => Some EmptyString
  | PStr s :: rest =>
      match output rest with
      | Some o => Some (s ++ newline ++ o)%string
      | None => None
      end
  | _ :: _ => None
  end.

Definition outcome {A} (x : res A * pipes * list event) : res A := fst (fst x).
Definition remaining {A} (x : res A * pipes * list event) : pipes := snd (fst x).
Definition events {A} (x : res A * pipes * list event) : list event := snd x.

Definition count (f : event -> bool) (t : list event) : nat :=
  List.length (filter f t).

Definition is_terminate (e : event) : bool :=
  match e with EvTerminate => true | _ => false end.

Definition is_wait (e : event) : bool :=
  match e with EvWait => true | _ => false end.

Definition is_cleanup (e : event) : bool := is_terminate e || is_wait e.

(** A read on which [read_msg] raised. *)
Definition is_bad_read (e : event) : bool :=
  match e with
  | EvReadline (RdLine l) =>
      match read_error l with Some _ => true | None => false end
  | _ => false
  end.

(** ** The read loop, line by line *)

(** What one iteration does with the line it read, as a function of the
    line; [await_step_cons] shows that this is what [await_step] computes. *)
Definition verdict (expected : Z) (l : line) : res (ctl (option value)) :=
  match l with
  | NotUtf8 => Raise UnicodeDecodeError
  | NotJson => Raise JSONDecodeError
  | TooLong => Raise ValueError
  | Json v =>
      if truthy v then
        match v with
        | PDict fields =>
            let id := match lookup "id" fields with Some i => i | None => PNone end in
            if eq_int id expected then Ok (Break (Some v)) else Ok Continue
        | _ => Raise AttributeError
        end
      else Ok (Break None)
  end.

(** ** The read loop as the specification words it *)

(** A decoded line whose [id] the script's [==] takes as the awaited one. *)
Definition has_id (expected : Z) (v : value) : bool :=
  match v with
  | PDict fields =>
      match lookup "id" fields with
      | Some i => eq_int i expected
      | None => false
      end
  | _ => false
  end.

(** A response whose [id] field is the integer [expected]: the
    specification's "id equals expectedId", for the integer ids of its data
    model. *)
Definition id_is (expected : Z) (v : value) : bool :=
  match v with
  | PDict fields =>
      match lookup "id" fields with
      | Some (PInt z) => z =? expected
      | _ => false
      end
  | _ => false
  end.

(** "Repeatedly calls receive(), discarding any response whose id does not
    equal expectedId, until either a matching response is found (returned) or
    receive() yields end-of-stream (returns absent)"; receive() "fails with
    DecodeError if the line is not valid single-line JSON". *)
Fixpoint awaitResponse_spec (expected : Z) (lines : list line) : res (option value) :=
  match lines with
  | [] => Ok None
  | Json v :: rest =>
      if id_is expected v then Ok (Some v) else awaitResponse_spec expected rest
  | NotUtf8 :: _ => Raise UnicodeDecodeError
  | NotJson :: _ => Raise JSONDecodeError
  | TooLong :: _ => Raise ValueError
  end.

(** The lines that call leaves unread: those after the matching line, none
    after end-of-stream. *)
Fixpoint unread_spec (expected : Z) (lines : list line) : list line :=
  match lines with
  | [] => []
  | Json v :: rest =>
      if id_is expected v then rest else unread_spec expected rest
  | _ :: rest => rest
  end.

(** A line that is a message: it decodes to a JSON object with at least one
    member. *)
Definition is_message (l : line) : bool :=
  match l with
  | Json (PDict (_ :: _)) => true
  | _ => false
  end.

(** A message whose [id], if it has one, is neither a boolean nor a float:
    an integer, a string, [null] (the ids of JSON-RPC), a list or an
    object. *)
Definition is_plain_message (l : line) : bool :=
  match l with
  | Json (PDict (f :: fields)) =>
      match lookup "id" (f :: fields) with
      | Some (PBool _) | Some (PFloat _) => false
      | _ => true
      end
  | _ => false
  end.

(** A message that decodes and does not carry the awaited id. *)
Definition is_other_message (expected : Z) (l : line) : bool :=
  match l with
  | Json (PDict (f :: fields)) => negb (has_id expected (PDict (f :: fields)))
  | _ => false
  end.

(** The notification of scenario B, [{"method":"log","params":{}}]. *)
Definition log_notification : value :=
  PDict [("method", PStr "log"); ("params", PDict [])].

(** The replies of scenario A. *)
Definition reply_1 : value :=
  PDict [("id", PInt 1); ("result", PDict [])].

Definition reply_2 : value :=
  PDict [("id", PInt 2);
         ("result", PDict [("content", PList [PDict [("text", PStr "Notebook A")];
                                              PDict [("text", PStr "Notebook B")]])])].

Definition is_dict (v : value) : bool :=
  match v with PDict _ => true | _ => false end.

(** A reply to the tool call with an empty result, [{"id":2,"result":{}}]. *)
Definition empty_result_reply : value :=
  PDict [("id", PInt 2); ("result", PDict [])].


(** An empty JSON object on a line of its own, then the reply to id 1. *)
Definition empty_object_then_reply : pipes :=
  mkPipes [] [Json (PDict []); Json reply_1].

(** What [item.get("text", "")] is for an item that is a dict. *)
Definition text_of (item : value) : value :=
  match item with
  | PDict fields =>
      match lookup "text" fields with
      | Some text => text
      | None => PStr ""
      end
  | _ => PStr ""
  end.

(** The reads of a run of lines, as the log shows them. *)
Definition reads (lines : list line) : list event :=
  map (fun l => EvReadline (RdLine l)) lines.

(** A server that logs, answers out of order and then writes a line that is
    not JSON. *)
Definition chatty_server : pipes :=
  mkPipes [] [Json log_notification; Json reply_2; Json reply_1; NotJson].

(** A server whose second drain fails and whose second line is not JSON. *)
Definition broken_server : pipes :=
  mkPipes [None; Some BrokenPipeError] [Json reply_1; NotJson].

(** A reply to the tool call whose second content item has no text. *)
Definition sparse_reply_result : list (string * value) :=
  [("content", PList [PDict [("text", PStr "Notebook A")];
                      PDict [("type", PStr "text")]])].

Definition sparse_reply : list (string * value) :=
  [("id", PInt 2); ("result", PDict sparse_reply_result)].

(** A server that answers the handshake and then writes a line that is not
    JSON. *)
Definition garbling_server : pipes :=
  mkPipes [] [Json log_notification; Json reply_1; NotJson; Json reply_2].

(** A server that has died: it wrote nothing, and the second drain fails. *)
Definition dead_server : pipes :=
  mkPipes [None; Some ConnectionResetError] [].

(** A line whose id is the boolean [true], then the reply to id 1. *)
Definition true_id : value := PDict [("id", PBool true)].

Definition true_id_then_reply : pipes :=
  mkPipes [] [Json true_id; Json reply_1].

(** A server that logs, answers id 2 before id 1, and goes on writing. *)
Definition plain_server : pipes :=
  mkPipes [] [Json log_notification; Json reply_2; Json reply_1; Json log_notification].

(** ** Outcomes without their values *)

Inductive status : Type :=
  | Returned
  | Raised (e : exn)
  | Diverged.

Definition status_of {A} (r : res A) : status :=
  match r with
  | Ok _ => Returned
  | Raise e => Raised e
  | OutOfFuel => Diverged
  end.

(** The run neither loops for ever nor touches the cleanup calls. *)
Definition tidy (s : status) (t : list event) : Prop :=
  s <> Diverged /\ Forall (fun e => is_cleanup e = false) t.

(** Every line read was returned and decoded, or the last one read was not
    and its error is the outcome. *)
Definition decoded (s : status) (t : list event) : Prop :=
  Forall (fun e => is_bad_read e = false) t \/
  exists pre l e,
    t = pre ++ [EvReadline (RdLine l)] /\
    Forall (fun e => is_bad_read e = false) pre /\
    read_error l = Some e /\
    s = Raised e.

(** What the [finally] block makes of the outcome of the [try] block: it
    leaves it when [terminate()] returns, and puts the exception of
    [terminate()] in its place when it raises. *)
Definition after_cleanup (gone : option exn) (r : res unit) : res unit :=
  match gone with
  | None => r
  | Some e => Raise e
  end.

(** The calls of the [finally] block: [wait()] is reached when [terminate()]
    returns. *)
Definition cleanup_events (gone : option exn) : list event :=
  match gone with
  | None => [EvTerminate; EvWait]
  | Some _ => [EvTerminate]
  end.

(** ** Views of the log *)

Definition is_read (e : event) : bool :=
  match e with EvReadline _ => true | _ => false end.

Definition is_send (e : event) : bool :=
  match e with EvWrite _ | EvDrain => true | _ => false end.

(** The writes and drains of a run, in order. *)
Definition sends (t : list event) : list event := filter is_send t.

(** The lines a run took off the output stream, in order. *)
Fixpoint lines_read (t : list event) : list line :=
  match t with
  | [] => []
  | EvReadline (RdLine l) :: rest => l :: lines_read rest
  | _ :: rest => lines_read rest
  end.

(** A computation takes lines off the front of the stream, in order, and
    logs each one it takes. *)
Definition conserves {A} (m : M A) : Prop :=
  forall p, lines_read (events (m p)) ++ stdout (remaining (m p)) = stdout p.

(** A computation that leaves the pipes as they are and whose outcome and
    log do not depend on them. *)
Definition steady {A} (m : M A) : Prop :=
  exists r t, forall p, m p = (r, p, t).

(** A content with three items, the second of which is a string. *)
Definition mixed_content_reply_result : list (string * value) :=
  [("content", PList [PDict [("text", PStr "Notebook A")];
                      PStr "Notebook B";
                      PDict [("text", PStr "Notebook C")]])].

Definition mixed_content_reply : list (string * value) :=
  [("id", PInt 2); ("result", PDict mixed_content_reply_result)].

(** A property of outcome and log that a computation has on all pipes. *)
Definition respects (Q : status -> list event -> Prop) {A} (m : M A) : Prop :=
  forall p, Q (status_of (outcome (m p))) (events (m p)).

Lemma await_step_nil (n : Z) (ds : list (option exn)) :
  await_step n (mkPipes ds []) =
  (Ok (Break None), mkPipes ds [], [EvReadline RdEof]).
Proof. reflexivity. Qed.

Lemma await_step_cons (n : Z) (ds : list (option exn)) (l : line) (rest : list line) :
  await_step n (mkPipes ds (l :: rest)) =
  (verdict n l, mkPipes ds rest, [EvReadline (RdLine l)]).
Proof.
  destruct l as [v | | |]; try reflexivity.
  unfold await_step, read_msg, bind, readline, verdict; cbn.
  destruct (truthy v) eqn:T; cbn; [|reflexivity].
  destruct v; cbn; try reflexivity.
  destruct (lookup "id" fields) as [i|]; cbn.
  - destruct (eq_int i n); reflexivity.
  - reflexivity.
Qed.

Lemma await_response_nil (n : Z) (ds : list (option exn)) :
  await_response n (mkPipes ds []) =
  (Ok None, mkPipes ds [], [EvReadline RdEof]).
Proof. reflexivity. Qed.

(** The loop unrolled once: the fuel left after a discarded line is the fuel
    [await_response] starts with on the rest of the stream. *)
Lemma await_response_cons (n : Z) (ds : list (option exn)) (l : line) (rest : list line) :
  await_response n (mkPipes ds (l :: rest)) =
  match verdict n l with
  | Ok (Break r) => (Ok r, mkPipes ds rest, [EvReadline (RdLine l)])
  | Ok Continue =>
      match await_response n (mkPipes ds rest) with
      | (r, p, t) => (r, p, EvReadline (RdLine l) :: t)
      end
  | Raise e => (Raise e, mkPipes ds rest, [EvReadline (RdLine l)])
  | OutOfFuel => (OutOfFuel, mkPipes ds rest, [EvReadline (RdLine l)])
  end.
Proof.
  unfold await_response at 1. cbn [stdout List.length while_true].
  unfold bind at 1. rewrite await_step_cons.
  destruct (verdict n l) as [[r|] | e |]; reflexivity.
Qed.

(** ** Properties of the log that every statement of the script preserves *)

Section TraceInvariant.

Variable Q : status -> list event -> Prop.

Hypothesis Q_nil : forall s, s <> Diverged -> Q s [].
Hypothesis Q_app : forall t1 s t2, Q Returned t1 -> Q s t2 -> Q s (t1 ++ t2).
Hypothesis Q_write : forall msg, Q Returned [EvWrite msg].
Hypothesis Q_drain : forall s, s <> Diverged -> Q s [EvDrain].
Hypothesis Q_eof : Q Returned [EvReadline RdEof].
Hypothesis Q_line : forall n l, Q (status_of (verdict n l)) [EvReadline (RdLine l)].
Hypothesis Q_print : forall v, Q Returned [EvPrint v].

Lemma respects_ret {A} (a : A) : respects Q (ret a).
Proof. intro p. apply Q_nil. discriminate. Qed.

Lemma respects_raise {A} (e : exn) : respects Q (@raise A e).
Proof. intro p. apply Q_nil. discriminate. Qed.

Lemma respects_bind {A B} (m : M A) (k : A -> M B) :
  respects Q m -> (forall a, respects Q (k a)) -> respects Q (bind m k).
Proof.
  intros Hm Hk p. specialize (Hm p). unfold bind.
  destruct (m p) as [[r p1] t1]. cbn in Hm.
  destruct r as [a | e |]; cbn; try exact Hm.
  specialize (Hk a p1). destruct (k a p1) as [[r2 p2] t2]. cbn in *.
  apply Q_app; assumption.
Qed.

Lemma respects_send_msg (msg : value) : respects Q (send_msg msg).
Proof.
  apply respects_bind.
  - intro p. apply Q_write.
  - intros _ p. unfold drain.
    destruct (drains p) as [| [e |] ds]; apply Q_drain; discriminate.
Qed.

Lemma respects_get (obj : value) (key : string) (default : value) :
  respects Q (get obj key default).
Proof.
  destruct obj; try apply respects_raise.
  cbn. destruct (lookup key fields); apply respects_ret.
Qed.

Lemma respects_iterate (v : value) : respects Q (iterate v).
Proof.
  unfold iterate. destruct (iter v); [apply respects_raise | apply respects_ret].
Qed.

Lemma respects_for_each (xs : list value) (body : value -> M unit) :
  (forall x, respects Q (body x)) -> respects Q (for_each xs body).
Proof.
  intro Hbody. induction xs as [| x xs IH]; cbn.
  - apply respects_ret.
  - apply respects_bind; [apply Hbody | intros _; exact IH].
Qed.

Lemma respects_print_content (resp : value) : respects Q (print_content resp).
Proof.
  unfold print_content.
  apply respects_bind; [apply respects_get | intro result].
  apply respects_bind; [apply respects_get | intro content].
  apply respects_bind; [apply respects_iterate | intro items].
  apply respects_for_each. intro item.
  apply respects_bind; [apply respects_get | intro text].
  intro p. apply Q_print.
Qed.

Lemma respects_await_response (n : Z) : respects Q (await_response n).
Proof.
  intros [ds lines]. induction lines as [| l rest IH].
  - rewrite await_response_nil. apply Q_eof.
  - rewrite await_response_cons. pose proof (Q_line n l) as Hl.
    destruct (verdict n l) as [[r |] | e |]; try exact Hl.
    destruct (await_response n (mkPipes ds rest)) as [[r p] t].
    apply (Q_app [EvReadline (RdLine l)]); assumption.
Qed.

Lemma respects_exchange : respects Q exchange.
Proof.
  unfold exchange.
  apply respects_bind; [apply respects_send_msg | intros _].
  apply respects_bind; [apply respects_await_response | intros _].
  apply respects_bind; [apply respects_send_msg | intros _].
  unfold read_tool_response.
  apply respects_bind; [apply respects_await_response | intros [r |]].
  - apply respects_print_content.
  - apply respects_ret.
Qed.

End TraceInvariant.

Lemma verdict_terminates (n : Z) (l : line) : status_of (verdict n l) <> Diverged.
Proof.
  destruct l as [v | | |]; cbn; try discriminate.
  destruct (truthy v); [| discriminate].
  destruct v; try discriminate.
  destruct (eq_int _ n); discriminate.
Qed.

Lemma verdict_read_error (n : Z) (l : line) (e : exn) :
  read_error l = Some e -> verdict n l = Raise e.
Proof. destruct l; cbn; congruence. Qed.

Lemma decode_error_read_error (l : line) (e : exn) :
  decode_error l = Some e -> read_error l = Some e.
Proof. destruct l; cbn; congruence. Qed.

Lemma exchange_tidy (p : pipes) :
  tidy (status_of (outcome (exchange p))) (events (exchange p)).
Proof.
  apply (respects_exchange tidy); unfold tidy.
  - intros s Hs. split; [exact Hs | constructor].
  - intros t1 s t2 [_ H1] [Hs H2]. split; [exact Hs |].
    apply Forall_app. split; assumption.
  - intros msg. split; [discriminate | repeat constructor].
  - intros s Hs. split; [exact Hs | repeat constructor].
  - split; [discriminate | repeat constructor].
  - intros n l. split; [apply verdict_terminates | repeat constructor].
  - intros v. split; [discriminate | repeat constructor].
Qed.

Lemma exchange_decoded (p : pipes) :
  decoded (status_of (outcome (exchange p))) (events (exchange p)).
Proof.
  apply (respects_exchange decoded); unfold decoded.
  - intros s _. left. constructor.
  - intros t1 s t2 [H1 | (pre & l & e & _ & _ & _ & H)]; [| discriminate H].
    intros [H2 | (pre & l & e & Ht & Hpre & Hl & Hs)].
    + left. apply Forall_app. split; assumption.
    + right. exists (t1 ++ pre), l, e. subst t2.
      rewrite app_assoc. repeat split; try assumption.
      apply Forall_app. split; assumption.
  - intros msg. left. repeat constructor.
  - intros s _. left. repeat constructor.
  - left. repeat constructor.
  - intros n l. destruct (read_error l) as [e |] eqn:El.
    + right. exists [], l, e. rewrite (verdict_read_error n l e El).
      repeat split; [constructor | exact El].
    + left. constructor; [| constructor]. cbn. rewrite El. reflexivity.
  - intros v. left. repeat constructor.
Qed.

(** The [finally] block appends its calls to whatever the [try] block did;
    it leaves the outcome of the [try] block as it is when [terminate()]
    returns, and replaces it when [terminate()] raises. *)
Lemma session_eq (gone : option exn) (p : pipes) :
  session gone p =
  (after_cleanup gone (outcome (exchange p)), remaining (exchange p),
   events (exchange p) ++ cleanup_events gone).
Proof.
  destruct (exchange_tidy p) as [Hs _].
  unfold session, try_finally, outcome, remaining, events in *.
  destruct (exchange p) as [[r p1] t1]. cbn in *.
  destruct r; destruct gone; try reflexivity; contradiction Hs; reflexivity.
Qed.

Lemma list_notebooks_spawned (world : env) :
  spawn world = None ->
  list_notebooks world =
  (after_cleanup (terminate world) (outcome (exchange (server world))),
   EvSpawn :: events (exchange (server world)) ++ cleanup_events (terminate world)).
Proof.
  intro Hs. unfold list_notebooks. rewrite Hs, session_eq. reflexivity.
Qed.

Lemma count_app (f : event -> bool) (t1 t2 : list event) :
  count f (t1 ++ t2) = (count f t1 + count f t2)%nat.
Proof. unfold count. rewrite filter_app, length_app. reflexivity. Qed.

Lemma count_none (f : event -> bool) (t : list event) :
  Forall (fun e => f e = false) t -> count f t = 0%nat.
Proof.
  unfold count. induction 1 as [| e t He _ IH]; cbn; [reflexivity |].
  rewrite He. exact IH.
Qed.

Lemma not_cleanup_terminate (t : list event) :
  Forall (fun e => is_cleanup e = false) t ->
  Forall (fun e => is_terminate e = false) t.
Proof.
  apply Forall_impl. intros e H. unfold is_cleanup in H.
  apply orb_false_iff in H. apply H.
Qed.

Lemma not_cleanup_wait (t : list event) :
  Forall (fun e => is_cleanup e = false) t ->
  Forall (fun e => is_wait e = false) t.
Proof.
  apply Forall_impl. intros e H. unfold is_cleanup in H.
  apply orb_false_iff in H. apply H.
Qed.

(** ** The model on the paths of the script *)

(** A first drain that fails: nothing is read, the cleanup runs, the error
    leaves the run. *)
Example run_write_failure :
  list_notebooks
    (mkEnv None (mkPipes [Some BrokenPipeError] [Json reply_1; Json reply_2]) None) =
  (Raise BrokenPipeError,
   [EvSpawn; EvWrite init_request; EvDrain; EvTerminate; EvWait]).
Proof. reflexivity. Qed.

(** A server that has died: the second drain fails, and [terminate()] finds
    no process; its exception is the one that leaves the run, and [wait()] is
    not called. *)
Example run_dead_server :
  list_notebooks (mkEnv None dead_server (Some ProcessLookupError)) =
  (Raise ProcessLookupError,
   [EvSpawn; EvWrite init_request; EvDrain; EvReadline RdEof;
    EvWrite tool_request; EvDrain; EvTerminate]).
Proof. reflexivity. Qed.

(** A line over the limit: [readline()] raises. *)
Example run_line_too_long :
  list_notebooks (mkEnv None (mkPipes [] [Json reply_1; TooLong]) None) =
  (Raise ValueError,
   [EvSpawn; EvWrite init_request; EvDrain; EvReadline (RdLine (Json reply_1));
    EvWrite tool_request; EvDrain; EvReadline (RdLine TooLong);
    EvTerminate; EvWait]).
Proof. reflexivity. Qed.

(** A line that is JSON but not an object: [resp.get] raises. *)
Example run_not_an_object :
  list_notebooks (mkEnv None (mkPipes [] [Json (PList [PInt 1]); Json reply_1]) None) =
  (Raise AttributeError,
   [EvSpawn; EvWrite init_request; EvDrain;
    EvReadline (RdLine (Json (PList [PInt 1]))); EvTerminate; EvWait]).
Proof. reflexivity. Qed.

(** A content that is a number: the [for] raises. *)
Example run_content_not_iterable :
  fst (list_notebooks
         (mkEnv None (mkPipes [] [Json reply_1;
                                  Json (PDict [("id", PInt 2);
                                               ("result", PDict [("content", PInt 7)])])])
                None)) =
  Raise TypeError.
Proof. reflexivity. Qed.

(** [==] is Python's: the ids [true] and [1.0] compare equal to 1. *)
Example id_true_matches_1 :
  outcome (await_response 1 (mkPipes [] [Json (PDict [("id", PBool true)])])) =
  Ok (Some (PDict [("id", PBool true)])).
Proof. reflexivity. Qed.

Example id_float_matches_1 :
  outcome (await_response 1
             (mkPipes [] [Json (PDict [("id", PFloat (S754_finite false 4503599627370496 (-52)))])])) =
  Ok (Some (PDict [("id", PFloat (S754_finite false 4503599627370496 (-52)))])).
Proof. reflexivity. Qed.

(** ** The claims *)

(** C1, as stated, fails: when the server has died, [terminate()] raises
    [ProcessLookupError], [wait()] is not called, and that exception is the
    outcome; so the two-call termination step does not run on every path
    after a successful spawn. *)
Lemma cleanup_wait_skipped :
  spawn (mkEnv None dead_server (Some ProcessLookupError)) = None /\
  count is_terminate
    (snd (list_notebooks (mkEnv None dead_server (Some ProcessLookupError)))) = 1%nat /\
  count is_wait
    (snd (list_notebooks (mkEnv None dead_server (Some ProcessLookupError)))) = 0%nat /\
  fst (list_notebooks (mkEnv None dead_server (Some ProcessLookupError))) =
    Raise ProcessLookupError /\
  ~ (forall world,
       spawn world = None ->
       count is_terminate (snd (list_notebooks world)) = 1%nat /\
       count is_wait (snd (list_notebooks world)) = 1%nat).
Proof.
  repeat split.
  intro H. specialize (H (mkEnv None dead_server (Some ProcessLookupError)) eq_refl).
  destruct H as [_ H]. discriminate H.
Qed.

(** C1, amended.  In every run in which the subprocess was spawned, whatever
    the drains and the lines read do (normal completion, a write that fails,
    a line that does not decode or is too long, a closed output stream, a
    reply of the wrong shape), the run ends and [process.terminate()] is
    called exactly once, after everything else.  When [terminate()] returns,
    [process.wait()] is called exactly once, directly after it, these two
    calls are the last things the run does, and the outcome is that of the
    [try] block.  When [terminate()] raises, [wait()] is not called,
    [terminate()] is the last thing the run does, and its exception is the
    outcome of the run. *)
Theorem cleanup_exactly_once (world : env) :
  spawn world = None ->
  fst (list_notebooks world) <> OutOfFuel /\
  count is_terminate (snd (list_notebooks world)) = 1%nat /\
  (terminate world = None ->
   count is_wait (snd (list_notebooks world)) = 1%nat /\
   fst (list_notebooks world) = outcome (exchange (server world)) /\
   exists before, snd (list_notebooks world) = before ++ [EvTerminate; EvWait]) /\
  (forall e,
     terminate world = Some e ->
     count is_wait (snd (list_notebooks world)) = 0%nat /\
     fst (list_notebooks world) = Raise e /\
     exists before, snd (list_notebooks world) = before ++ [EvTerminate]).
Proof.
  intro Hs. rewrite (list_notebooks_spawned world Hs). cbn [fst snd].
  destruct (exchange_tidy (server world)) as [Hr Ht].
  change (EvSpawn :: ?t ++ ?c) with ([EvSpawn] ++ t ++ c).
  rewrite !count_app, (count_none _ _ (not_cleanup_terminate _ Ht)),
    (count_none _ _ (not_cleanup_wait _ Ht)).
  split; [| split; [| split]].
  - destruct (terminate world); cbn [after_cleanup]; [discriminate |].
    intro H. apply Hr. rewrite H. reflexivity.
  - destruct (terminate world); reflexivity.
  - intros ->. cbn [after_cleanup cleanup_events]. repeat split.
    exists ([EvSpawn] ++ events (exchange (server world))).
    rewrite <- app_assoc. reflexivity.
  - intros e ->. cbn [after_cleanup cleanup_events]. repeat split.
    exists ([EvSpawn] ++ events (exchange (server world))).
    rewrite <- app_assoc. reflexivity.
Qed.

Lemma cleanup_exactly_once_witness :
  spawn (mkEnv None broken_server None) = None /\
  count is_terminate (snd (list_notebooks (mkEnv None broken_server None))) = 1%nat /\
  count is_wait (snd (list_notebooks (mkEnv None broken_server None))) = 1%nat /\
  count is_terminate
    (snd (list_notebooks (mkEnv None dead_server (Some ProcessLookupError)))) = 1%nat /\
  count is_wait
    (snd (list_notebooks (mkEnv None dead_server (Some ProcessLookupError)))) = 0%nat /\
  fst (list_notebooks (mkEnv None dead_server (Some ProcessLookupError))) =
    Raise ProcessLookupError.
Proof.
  destruct (cleanup_exactly_once (mkEnv None broken_server None) eq_refl)
    as (_ & Ht & Hreturns & _).
  destruct (Hreturns eq_refl) as (Hw & _ & _).
  destruct (cleanup_exactly_once (mkEnv None dead_server (Some ProcessLookupError)) eq_refl)
    as (_ & Ht' & _ & Hraises).
  destruct (Hraises ProcessLookupError eq_refl) as (Hw' & Ho' & _).
  repeat split; assumption.
Defined.

(** *** The read loop *)

Lemma has_id_message (n : Z) (v : value) :
  has_id n v = true -> is_message (Json v) = true.
Proof.
  destruct v; cbn; try discriminate.
  destruct fields; [discriminate | reflexivity].
Qed.

Lemma verdict_message (n : Z) (v : value) :
  is_message (Json v) = true ->
  verdict n (Json v) = if has_id n v then Ok (Break (Some v)) else Ok Continue.
Proof.
  destruct v; cbn; try discriminate.
  destruct fields as [| f fields]; [discriminate |]. intros _.
  cbn [truthy has_id]. destruct (lookup "id" (f :: fields)) as [i |]; reflexivity.
Qed.

Lemma verdict_other (n : Z) (l : line) :
  is_other_message n l = true -> verdict n l = Ok Continue.
Proof.
  destruct l as [v | | |]; try discriminate.
  destruct v; try discriminate.
  destruct fields as [| f fields]; [discriminate |].
  unfold is_other_message. intro H. apply negb_true_iff in H.
  rewrite verdict_message, H; reflexivity.
Qed.

Lemma verdict_found (n : Z) (l : line) (r : value) :
  verdict n l = Ok (Break (Some r)) ->
  l = Json r /\
  exists fields i,
    r = PDict fields /\ lookup "id" fields = Some i /\ eq_int i n = true.
Proof.
  destruct l as [v | | |]; cbn; try discriminate.
  destruct (truthy v); [| discriminate].
  destruct v; try discriminate.
  destruct (lookup "id" fields) as [i |] eqn:Hi; cbn.
  - destruct (eq_int i n) eqn:Hn; [| discriminate].
    intro H. injection H as <-. split; [reflexivity |].
    exists fields, i. auto.
  - discriminate.
Qed.

(** On a message whose id is neither a boolean nor a float, the script's
    [==] and the specification's equality of ids agree. *)
Lemma plain_message_id (n : Z) (v : value) :
  is_plain_message (Json v) = true ->
  is_message (Json v) = true /\ has_id n v = id_is n v.
Proof.
  destruct v; try discriminate.
  destruct fields as [| f fields]; [discriminate |].
  unfold is_plain_message, is_message, has_id, id_is.
  destruct (lookup "id" (f :: fields)) as [[| b | z | x | s | items | d] |];
    try discriminate; intros _; split; reflexivity.
Qed.

(** Lines that are other messages are read and passed over. *)
Lemma await_response_skip (n : Z) (ds : list (option exn)) (pre tail : list line) :
  Forall (fun l => is_other_message n l = true) pre ->
  await_response n (mkPipes ds (pre ++ tail)) =
  (outcome (await_response n (mkPipes ds tail)),
   remaining (await_response n (mkPipes ds tail)),
   reads pre ++ events (await_response n (mkPipes ds tail))).
Proof.
  induction 1 as [| l pre Hl _ IH]; cbn [app map reads].
  - destruct (await_response n (mkPipes ds tail)) as [[r p] t]. reflexivity.
  - rewrite await_response_cons, (verdict_other n l Hl), IH. reflexivity.
Qed.

Lemma await_response_found (n : Z) (ds : list (option exn))
      (pre : list line) (v : value) (rest : list line) :
  Forall (fun l => is_other_message n l = true) pre ->
  has_id n v = true ->
  await_response n (mkPipes ds (pre ++ Json v :: rest)) =
  (Ok (Some v), mkPipes ds rest, reads pre ++ [EvReadline (RdLine (Json v))]).
Proof.
  intros Hpre Hv. rewrite (await_response_skip n ds pre _ Hpre).
  rewrite await_response_cons, (verdict_message n v (has_id_message n v Hv)), Hv.
  reflexivity.
Qed.

Lemma await_response_eof (n : Z) (ds : list (option exn)) (pre : list line) :
  Forall (fun l => is_other_message n l = true) pre ->
  await_response n (mkPipes ds pre) =
  (Ok None, mkPipes ds [], reads pre ++ [EvReadline RdEof]).
Proof.
  intros Hpre. rewrite <- (app_nil_r pre) at 1.
  rewrite (await_response_skip n ds pre _ Hpre), await_response_nil. reflexivity.
Qed.

(** C2, as stated, fails: an empty JSON object decodes, carries no id, and
    yet ends the loop as if the stream had ended, with the matching line
    still unread; so the loop is not the specification's [awaitResponse] on
    every sequence of lines. *)
Lemma await_response_not_spec :
  outcome (await_response 1 empty_object_then_reply) = Ok None /\
  stdout (remaining (await_response 1 empty_object_then_reply)) = [Json reply_1] /\
  awaitResponse_spec 1 (stdout empty_object_then_reply) = Ok (Some reply_1) /\
  ~ (forall n p, outcome (await_response n p) = awaitResponse_spec n (stdout p)).
Proof.
  repeat split.
  intro H. specialize (H 1 empty_object_then_reply). discriminate H.
Qed.

(** C2, amended.  On every sequence of lines each of which decodes to a JSON
    object with at least one member whose id, if it has one, is neither a
    boolean nor a float, the loop is the specification's [awaitResponse]: it
    returns (it does not raise); it passes over every line whose id is not
    the awaited one and keeps reading; it stops only at the first line with
    the awaited id, which it returns and behind which it reads nothing, or
    at end-of-file, where it returns absent.  The notification
    [{"method":"log","params":{}}] in front of such a sequence is passed
    over: the outcome is that of the lines behind it. *)
Theorem await_response_messages (n : Z) (p : pipes) :
  Forall (fun l => is_plain_message l = true) (stdout p) ->
  outcome (await_response n p) = awaitResponse_spec n (stdout p) /\
  (exists r, outcome (await_response n p) = Ok r) /\
  stdout (remaining (await_response n p)) = unread_spec n (stdout p) /\
  outcome (await_response n (mkPipes (drains p) (Json log_notification :: stdout p))) =
    outcome (await_response n p).
Proof.
  destruct p as [ds lines]. cbn [stdout drains]. intro Hm.
  assert (H : outcome (await_response n (mkPipes ds lines)) = awaitResponse_spec n lines /\
              (exists r, outcome (await_response n (mkPipes ds lines)) = Ok r) /\
              stdout (remaining (await_response n (mkPipes ds lines))) =
                unread_spec n lines).
  { induction Hm as [| l rest Hl _ IH].
    - repeat split. exists None. reflexivity.
    - rewrite await_response_cons. destruct l as [v | | |]; try discriminate Hl.
      destruct (plain_message_id n v Hl) as [Hmsg Hid].
      rewrite (verdict_message n v Hmsg), Hid. cbn [awaitResponse_spec unread_spec].
      destruct (id_is n v).
      + repeat split. exists (Some v). reflexivity.
      + destruct (await_response n (mkPipes ds rest)) as [[r q] t]. exact IH. }
  destruct H as (H1 & H2 & H3). repeat split; try assumption.
  rewrite await_response_cons.
  replace (verdict n (Json log_notification)) with (@Ok (ctl (option value)) Continue)
    by reflexivity.
  destruct (await_response n (mkPipes ds lines)) as [[r q] t]. reflexivity.
Qed.

Lemma await_response_messages_witness :
  Forall (fun l => is_plain_message l = true) (stdout plain_server) /\
  outcome (await_response 1 plain_server) = awaitResponse_spec 1 (stdout plain_server) /\
  outcome (await_response 1 plain_server) = Ok (Some reply_1) /\
  stdout (remaining (await_response 1 plain_server)) = unread_spec 1 (stdout plain_server) /\
  outcome (await_response 1
             (mkPipes (drains plain_server) (Json log_notification :: stdout plain_server))) =
    outcome (await_response 1 plain_server).
Proof.
  assert (H : Forall (fun l => is_plain_message l = true) (stdout plain_server))
    by (repeat constructor).
  destruct (await_response_messages 1 plain_server H) as (H1 & _ & H3 & H4).
  repeat split; assumption.
Defined.

(** C3, as stated, fails twice over.  The script compares ids with [==], to
    which [true] is 1: the loop that awaits 1 returns a response whose id is
    the boolean [true], with the reply whose id is 1 still unread.  And the
    loop need not return at all: on a line that is not JSON it raises. *)
Lemma await_response_id_not_n :
  outcome (await_response 1 true_id_then_reply) = Ok (Some true_id) /\
  id_is 1 true_id = false /\
  stdout (remaining (await_response 1 true_id_then_reply)) = [Json reply_1] /\
  outcome (await_response 1 (mkPipes [] [NotJson; Json reply_1])) = Raise JSONDecodeError /\
  ~ (forall n p,
       (exists r, outcome (await_response n p) = Ok (Some r) /\ id_is n r = true) \/
       outcome (await_response n p) = Ok None).
Proof.
  repeat split.
  intro H. destruct (H 1 true_id_then_reply) as [(r & Hr & Hid) | Hnone].
  - injection Hr as <-. discriminate Hid.
  - discriminate Hnone.
Qed.

(** C3, amended.  For every sequence of lines and every n, the loop that
    awaits n ends in one of three ways.  It returns a response, which is then
    a JSON object with an [id] member that Python's [==] takes as n: the
    integer n, a boolean that is n as an integer ([true] for 1, [false] for
    0), or a float of value n.  Or it returns absent.  Or it raises.  It
    never returns a response whose [id] is missing or compares unequal to
    n. *)
Theorem await_response_id (n : Z) (p : pipes) :
  (exists fields i,
     outcome (await_response n p) = Ok (Some (PDict fields)) /\
     lookup "id" fields = Some i /\
     eq_int i n = true /\
     (i = PInt n \/
      (exists b, i = PBool b /\ Z.b2z b = n) \/
      (exists f, i = PFloat f /\ float_eq_int f n = true))) \/
  outcome (await_response n p) = Ok None \/
  (exists e, outcome (await_response n p) = Raise e).
Proof.
  destruct p as [ds lines]. induction lines as [| l rest IH].
  - right. left. reflexivity.
  - rewrite await_response_cons. destruct (verdict n l) as [[[r |] |] | e |] eqn:V.
    + left. destruct (verdict_found n l r V) as (_ & fields & i & -> & Hi & Hn).
      exists fields, i. repeat split; try assumption.
      destruct i as [| b | z | f | s | items | d]; try discriminate Hn; cbn in Hn.
      * right. left. exists b. split; [reflexivity | apply Z.eqb_eq; exact Hn].
      * left. f_equal. apply Z.eqb_eq. exact Hn.
      * right. right. exists f. split; [reflexivity | exact Hn].
    + right. left. reflexivity.
    + destruct (await_response n (mkPipes ds rest)) as [[r q] t]. exact IH.
    + right. right. exists e. reflexivity.
    + exfalso. apply (verdict_terminates n l). rewrite V. reflexivity.
Qed.

(** *** The two exchanges *)

Lemma bind_ok {A B} (m : M A) (k : A -> M B) (p p1 : pipes) (a : A) (t1 : list event) :
  m p = (Ok a, p1, t1) ->
  bind m k p = (outcome (k a p1), remaining (k a p1), t1 ++ events (k a p1)).
Proof.
  intro H. unfold bind. rewrite H. destruct (k a p1) as [[r p2] t2]. reflexivity.
Qed.

Lemma bind_raise {A B} (m : M A) (k : A -> M B) (p p1 : pipes) (e : exn) (t1 : list event) :
  m p = (Raise e, p1, t1) ->
  bind m k p = (Raise e, p1, t1).
Proof. intro H. unfold bind. rewrite H. reflexivity. Qed.

Lemma send_msg_ok (msg : value) (lines : list line) :
  send_msg msg (mkPipes [] lines) = (Ok tt, mkPipes [] lines, [EvWrite msg; EvDrain]).
Proof. reflexivity. Qed.

(** A drain that returns: the next outcome on the list is [None], or the list
    is used up. *)
Lemma send_msg_returns (msg : value) (ds : list (option exn)) (lines : list line) :
  hd None ds = None ->
  send_msg msg (mkPipes ds lines) = (Ok tt, mkPipes (tl ds) lines, [EvWrite msg; EvDrain]).
Proof. destruct ds as [| [e |] ds]; [reflexivity | discriminate | reflexivity]. Qed.

Lemma send_msg_raises (msg : value) (ds : list (option exn)) (lines : list line) (e : exn) :
  hd None ds = Some e ->
  send_msg msg (mkPipes ds lines) = (Raise e, mkPipes (tl ds) lines, [EvWrite msg; EvDrain]).
Proof.
  destruct ds as [| [e' |] ds]; try discriminate.
  cbn [hd]. intro H. injection H as ->. reflexivity.
Qed.

Lemma printed_app (t1 t2 : list event) :
  printed (t1 ++ t2) = printed t1 ++ printed t2.
Proof.
  induction t1 as [| e t1 IH]; [reflexivity |].
  destruct e; cbn; rewrite IH; reflexivity.
Qed.

Lemma printed_reads (lines : list line) : printed (reads lines) = [].
Proof. induction lines as [| l lines IH]; [reflexivity | exact IH]. Qed.

Lemma printed_cleanup (gone : option exn) : printed (cleanup_events gone) = [].
Proof. destruct gone; reflexivity. Qed.

(** The second loop when the stream ends before a reply to id 2. *)
Lemma read_tool_response_eof (ds : list (option exn)) (pre : list line) :
  Forall (fun l => is_other_message 2 l = true) pre ->
  read_tool_response (mkPipes ds pre) =
  (Ok tt, mkPipes ds [], reads pre ++ [EvReadline RdEof]).
Proof.
  intro Hpre. unfold read_tool_response.
  rewrite (bind_ok _ _ _ _ _ _ (await_response_eof 2 ds pre Hpre)).
  cbn [outcome remaining events ret fst snd]. rewrite app_nil_r. reflexivity.
Qed.

(** The second loop when the reply to id 2 arrives. *)
Lemma read_tool_response_found (ds : list (option exn))
      (pre : list line) (v : value) (rest : list line) :
  Forall (fun l => is_other_message 2 l = true) pre ->
  has_id 2 v = true ->
  read_tool_response (mkPipes ds (pre ++ Json v :: rest)) =
  (outcome (print_content v (mkPipes ds rest)),
   remaining (print_content v (mkPipes ds rest)),
   reads pre ++ EvReadline (RdLine (Json v)) :: events (print_content v (mkPipes ds rest))).
Proof.
  intros Hpre Hv. unfold read_tool_response.
  rewrite (bind_ok _ _ _ _ _ _ (await_response_found 2 ds pre v rest Hpre Hv)).
  rewrite <- app_assoc. reflexivity.
Qed.

(** The [try] block when the reply to id 1 arrives and both drains return. *)
Lemma exchange_handshake (ds : list (option exn))
      (pre : list line) (h : value) (rest : list line) :
  hd None ds = None ->
  hd None (tl ds) = None ->
  Forall (fun l => is_other_message 1 l = true) pre ->
  has_id 1 h = true ->
  exchange (mkPipes ds (pre ++ Json h :: rest)) =
  (outcome (read_tool_response (mkPipes (tl (tl ds)) rest)),
   remaining (read_tool_response (mkPipes (tl (tl ds)) rest)),
   EvWrite init_request :: EvDrain :: reads pre ++
   EvReadline (RdLine (Json h)) :: EvWrite tool_request :: EvDrain ::
   events (read_tool_response (mkPipes (tl (tl ds)) rest))).
Proof.
  intros Hd1 Hd2 Hpre Hh. unfold exchange.
  rewrite (bind_ok _ _ _ _ _ _ (send_msg_returns init_request ds _ Hd1)).
  rewrite (bind_ok _ _ _ _ _ _ (await_response_found 1 (tl ds) pre h rest Hpre Hh)).
  rewrite (bind_ok _ _ _ _ _ _ (send_msg_returns tool_request (tl ds) _ Hd2)).
  cbn [outcome remaining events fst snd]. rewrite <- app_assoc. reflexivity.
Qed.

(** The [try] block when the reply to id 1 arrives and the second drain
    raises. *)
Lemma exchange_second_drain (ds : list (option exn))
      (pre : list line) (h : value) (rest : list line) (e : exn) :
  hd None ds = None ->
  hd None (tl ds) = Some e ->
  Forall (fun l => is_other_message 1 l = true) pre ->
  has_id 1 h = true ->
  exchange (mkPipes ds (pre ++ Json h :: rest)) =
  (Raise e, mkPipes (tl (tl ds)) rest,
   EvWrite init_request :: EvDrain :: reads pre ++
   [EvReadline (RdLine (Json h)); EvWrite tool_request; EvDrain]).
Proof.
  intros Hd1 Hd2 Hpre Hh. unfold exchange.
  rewrite (bind_ok _ _ _ _ _ _ (send_msg_returns init_request ds _ Hd1)).
  rewrite (bind_ok _ _ _ _ _ _ (await_response_found 1 (tl ds) pre h rest Hpre Hh)).
  rewrite (bind_raise _ _ _ _ _ _ (send_msg_raises tool_request (tl ds) _ e Hd2)).
  cbn [outcome remaining events fst snd app]. rewrite <- app_assoc. reflexivity.
Qed.

(** The [try] block when the stream ends before a reply to id 1. *)
Lemma exchange_no_handshake (ds : list (option exn)) (pre : list line) :
  hd None ds = None ->
  Forall (fun l => is_other_message 1 l = true) pre ->
  exchange (mkPipes ds pre) =
  (match hd None (tl ds) with None => Ok tt | Some e => Raise e end,
   mkPipes (tl (tl ds)) [],
   EvWrite init_request :: EvDrain :: reads pre ++
   EvReadline RdEof :: EvWrite tool_request :: EvDrain ::
   match hd None (tl ds) with None => [EvReadline RdEof] | Some _ => [] end).
Proof.
  intros Hd1 Hpre. unfold exchange.
  rewrite (bind_ok _ _ _ _ _ _ (send_msg_returns init_request ds _ Hd1)).
  rewrite (bind_ok _ _ _ _ _ _ (await_response_eof 1 (tl ds) pre Hpre)).
  destruct (hd None (tl ds)) as [e |] eqn:Hd2.
  - rewrite (bind_raise _ _ _ _ _ _ (send_msg_raises tool_request (tl ds) _ e Hd2)).
    cbn [outcome remaining events fst snd app]. rewrite <- app_assoc. reflexivity.
  - rewrite (bind_ok _ _ _ _ _ _ (send_msg_returns tool_request (tl ds) _ Hd2)).
    cbn [outcome remaining events fst snd app]. rewrite <- app_assoc. reflexivity.
Qed.

(** *** Printing the reply *)

Lemma print_items (items : list value) (p : pipes) :
  Forall (fun item => is_dict item = true) items ->
  for_each items (fun item => text <- get item "text" (PStr "") ;; emit (EvPrint text)) p =
  (Ok tt, p, map (fun item => EvPrint (text_of item)) items).
Proof.
  induction 1 as [| item items Hd _ IH]; [reflexivity |].
  destruct item; try discriminate Hd.
  cbn [for_each map]. unfold bind at 1.
  replace ((text <- get (PDict fields) "text" (PStr "") ;; emit (EvPrint text)) p)
    with (@Ok unit tt, p, [EvPrint (text_of (PDict fields))])
    by (unfold bind, get, text_of; destruct (lookup "text" fields); reflexivity).
  rewrite IH. reflexivity.
Qed.


Lemma print_content_no_content (fields result : list (string * value)) (p : pipes) :
  lookup "result" fields = Some (PDict result) ->
  lookup "content" result = None ->
  print_content (PDict fields) p = (Ok tt, p, []).
Proof. intros H1 H2. unfold print_content, bind, get. rewrite H1. cbn. rewrite H2. reflexivity. Qed.

Lemma print_content_items (fields result : list (string * value))
      (items : list value) (p : pipes) :
  lookup "result" fields = Some (PDict result) ->
  lookup "content" result = Some (PList items) ->
  Forall (fun item => is_dict item = true) items ->
  print_content (PDict fields) p =
  (Ok tt, p, map (fun item => EvPrint (text_of item)) items).
Proof.
  intros H1 H2 Hd. unfold print_content.
  unfold bind at 1. unfold get at 1. rewrite H1. cbn [ret].
  unfold bind at 1. unfold get at 1. rewrite H2. cbn [ret].
  unfold bind at 1. cbn [iterate iter ret].
  rewrite (print_items items p Hd). reflexivity.
Qed.

Lemma printed_prints (vs : list value) (f : value -> value) :
  printed (map (fun v => EvPrint (f v)) vs) = map f vs.
Proof. induction vs as [| v vs IH]; [reflexivity | cbn; rewrite IH; reflexivity]. Qed.

Lemma status_of_raised {A} (r : res A) (e : exn) :
  status_of r = Raised e -> r = Raise e.
Proof. destruct r; cbn; congruence. Qed.

Lemma steady_ret {A} (a : A) : steady (ret a).
Proof. exists (Ok a), []. reflexivity. Qed.

Lemma steady_raise {A} (e : exn) : steady (@raise A e).
Proof. exists (Raise e), []. reflexivity. Qed.

Lemma steady_emit (e : event) : steady (emit e).
Proof. exists (Ok tt), [e]. reflexivity. Qed.

Lemma steady_bind {A B} (m : M A) (k : A -> M B) :
  steady m -> (forall a, steady (k a)) -> steady (bind m k).
Proof.
  intros (r & t & Hm) Hk. destruct r as [a | e |].
  - destruct (Hk a) as (r2 & t2 & Hka). exists r2, (t ++ t2).
    intro p. unfold bind. rewrite Hm, Hka. reflexivity.
  - exists (Raise e), t. intro p. unfold bind. rewrite Hm. reflexivity.
  - exists OutOfFuel, t. intro p. unfold bind. rewrite Hm. reflexivity.
Qed.

Lemma steady_get (obj : value) (key : string) (default : value) :
  steady (get obj key default).
Proof.
  destruct obj; try apply steady_raise.
  cbn. destruct (lookup key fields); apply steady_ret.
Qed.

Lemma steady_for_each (xs : list value) (body : value -> M unit) :
  (forall x, steady (body x)) -> steady (for_each xs body).
Proof.
  intro Hbody. induction xs as [| x xs IH]; cbn.
  - apply steady_ret.
  - apply steady_bind; [apply Hbody | intros _; exact IH].
Qed.

(** The printing does not touch the pipes, and neither its outcome nor its
    log depends on them. *)
Lemma steady_print_content (resp : value) : steady (print_content resp).
Proof.
  unfold print_content.
  apply steady_bind; [apply steady_get | intro result].
  apply steady_bind; [apply steady_get | intro content].
  apply steady_bind.
  - unfold iterate. destruct (iter content); [apply steady_raise | apply steady_ret].
  - intro items. apply steady_for_each. intro item.
    apply steady_bind; [apply steady_get | intro text; apply steady_emit].
Qed.

Lemma print_content_pipes (d : value) (p q : pipes) :
  outcome (print_content d p) = outcome (print_content d q) /\
  events (print_content d p) = events (print_content d q).
Proof.
  destruct (steady_print_content d) as (r & t & H). rewrite (H p), (H q).
  split; reflexivity.
Qed.

(** The run when the handshake completes, both drains return and a reply with
    id 2 arrives. *)
Lemma run_reply (ds : list (option exn)) (pre1 : list line) (h : value)
      (pre2 : list line) (d : value) (rest : list line) (gone : option exn) :
  hd None ds = None ->
  hd None (tl ds) = None ->
  Forall (fun l => is_other_message 1 l = true) pre1 ->
  has_id 1 h = true ->
  Forall (fun l => is_other_message 2 l = true) pre2 ->
  has_id 2 d = true ->
  list_notebooks
    (mkEnv None (mkPipes ds (pre1 ++ Json h :: pre2 ++ Json d :: rest)) gone) =
  (after_cleanup gone (outcome (print_content d (mkPipes [] []))),
   EvSpawn :: EvWrite init_request :: EvDrain :: reads pre1 ++
   EvReadline (RdLine (Json h)) :: EvWrite tool_request :: EvDrain :: reads pre2 ++
   EvReadline (RdLine (Json d)) :: events (print_content d (mkPipes [] [])) ++
   cleanup_events gone).
Proof.
  intros Hd1 Hd2 H1 Hh H2 Hd.
  rewrite list_notebooks_spawned by reflexivity. cbn [server terminate].
  rewrite (exchange_handshake ds pre1 h _ Hd1 Hd2 H1 Hh).
  rewrite (read_tool_response_found (tl (tl ds)) pre2 d rest H2 Hd).
  cbn [outcome remaining events fst snd].
  destruct (print_content_pipes d (mkPipes (tl (tl ds)) rest) (mkPipes [] [])) as [Ho He].
  rewrite Ho, He.
  repeat (rewrite <- ?app_assoc; cbn [app]). reflexivity.
Qed.

(** *** The scenarios *)

(** C4 (scenario A).  When the server answers id 1 with [{"id":1,"result":{}}]
    and id 2 with the two content items "Notebook A" and "Notebook B", the
    run prints exactly these two texts, in the order of the content items:
    the standard output is the two lines [Notebook A] and [Notebook B],
    whatever [terminate()] does afterwards; when [terminate()] returns, the
    run returns. *)
Theorem scenario_A (rest : list line) (gone : option exn) :
  list_notebooks
    (mkEnv None (mkPipes [] (Json reply_1 :: Json reply_2 :: rest)) None) =
  (Ok tt,
   [EvSpawn;
    EvWrite init_request; EvDrain; EvReadline (RdLine (Json reply_1));
    EvWrite tool_request; EvDrain; EvReadline (RdLine (Json reply_2));
    EvPrint (PStr "Notebook A"); EvPrint (PStr "Notebook B");
    EvTerminate; EvWait]) /\
  printed (snd (list_notebooks
                  (mkEnv None (mkPipes [] (Json reply_1 :: Json reply_2 :: rest)) gone))) =
  [PStr "Notebook A"; PStr "Notebook B"] /\
  output (printed (snd (list_notebooks
                          (mkEnv None (mkPipes [] (Json reply_1 :: Json reply_2 :: rest))
                                 gone)))) =
  Some ("Notebook A" ++ newline ++ "Notebook B" ++ newline)%string.
Proof. destruct gone; repeat split. Qed.

(** C5, as stated, fails: when the server has exited by the time the
    [finally] block runs, [terminate()] raises [ProcessLookupError]; the run
    then ends with that exception and [wait()] is not called. *)
Lemma scenario_C_wait_skipped :
  fst (list_notebooks (mkEnv None (mkPipes [] [Json reply_1]) (Some ProcessLookupError))) =
    Raise ProcessLookupError /\
  snd (list_notebooks (mkEnv None (mkPipes [] [Json reply_1]) (Some ProcessLookupError))) =
    [EvSpawn; EvWrite init_request; EvDrain; EvReadline (RdLine (Json reply_1));
     EvWrite tool_request; EvDrain; EvReadline RdEof; EvTerminate] /\
  count is_wait
    (snd (list_notebooks (mkEnv None (mkPipes [] [Json reply_1]) (Some ProcessLookupError)))) =
    0%nat.
Proof. repeat split. Qed.

(** C5 (scenario C), amended.  When the output stream is closed after the
    reply to id 1 without a reply to id 2 ever having been sent (other
    messages may come before and after the reply to id 1) and both drains
    return, the second loop reaches end-of-file and returns absent, nothing
    is printed, and [terminate()] is still called.  When [terminate()]
    returns, [wait()] is called after it and the run returns normally; when
    it raises, [wait()] is not called and its exception ends the run. *)
Theorem scenario_C (ds : list (option exn)) (pre1 : list line) (h : value)
        (pre2 : list line) (gone : option exn) :
  hd None ds = None ->
  hd None (tl ds) = None ->
  Forall (fun l => is_other_message 1 l = true) pre1 ->
  has_id 1 h = true ->
  Forall (fun l => is_other_message 2 l = true) pre2 ->
  await_response 2
    (remaining (await_response 1 (mkPipes ds (pre1 ++ Json h :: pre2)))) =
    (Ok None, mkPipes ds [], reads pre2 ++ [EvReadline RdEof]) /\
  list_notebooks (mkEnv None (mkPipes ds (pre1 ++ Json h :: pre2)) gone) =
    (match gone with None => Ok tt | Some e => Raise e end,
     EvSpawn :: EvWrite init_request :: EvDrain :: reads pre1 ++
     EvReadline (RdLine (Json h)) :: EvWrite tool_request :: EvDrain :: reads pre2 ++
     EvReadline RdEof ::
     match gone with None => [EvTerminate; EvWait] | Some _ => [EvTerminate] end) /\
  printed (snd (list_notebooks
                  (mkEnv None (mkPipes ds (pre1 ++ Json h :: pre2)) gone))) = [].
Proof.
  intros Hd1 Hd2 H1 Hh H2.
  assert (Hrun : list_notebooks (mkEnv None (mkPipes ds (pre1 ++ Json h :: pre2)) gone) =
    (match gone with None => Ok tt | Some e => Raise e end,
     EvSpawn :: EvWrite init_request :: EvDrain :: reads pre1 ++
     EvReadline (RdLine (Json h)) :: EvWrite tool_request :: EvDrain :: reads pre2 ++
     EvReadline RdEof ::
     match gone with None => [EvTerminate; EvWait] | Some _ => [EvTerminate] end)).
  { rewrite list_notebooks_spawned by reflexivity. cbn [server terminate].
    rewrite (exchange_handshake ds pre1 h pre2 Hd1 Hd2 H1 Hh).
    rewrite (read_tool_response_eof (tl (tl ds)) pre2 H2).
    cbn [outcome remaining events fst snd].
    repeat (rewrite <- ?app_assoc; cbn [app]). reflexivity. }
  split; [| split].
  - rewrite (await_response_found 1 ds pre1 h pre2 H1 Hh).
    exact (await_response_eof 2 ds pre2 H2).
  - exact Hrun.
  - rewrite Hrun. cbn [snd printed]. rewrite printed_app, printed_reads. cbn [printed app].
    rewrite printed_app, printed_reads. destruct gone; reflexivity.
Qed.

Lemma scenario_C_witness :
  list_notebooks
    (mkEnv None
       (mkPipes [] ([Json log_notification] ++ Json reply_1 :: [Json log_notification]))
       None) =
    (Ok tt,
     EvSpawn :: EvWrite init_request :: EvDrain :: reads [Json log_notification] ++
     EvReadline (RdLine (Json reply_1)) :: EvWrite tool_request :: EvDrain ::
     reads [Json log_notification] ++
     EvReadline RdEof :: [EvTerminate; EvWait]) /\
  list_notebooks
    (mkEnv None
       (mkPipes [] ([Json log_notification] ++ Json reply_1 :: [Json log_notification]))
       (Some ProcessLookupError)) =
    (Raise ProcessLookupError,
     EvSpawn :: EvWrite init_request :: EvDrain :: reads [Json log_notification] ++
     EvReadline (RdLine (Json reply_1)) :: EvWrite tool_request :: EvDrain ::
     reads [Json log_notification] ++
     EvReadline RdEof :: [EvTerminate]).
Proof.
  split.
  - apply (scenario_C [] [Json log_notification] reply_1 [Json log_notification] None
             eq_refl eq_refl ltac:(repeat constructor) eq_refl ltac:(repeat constructor)).
  - apply (scenario_C [] [Json log_notification] reply_1 [Json log_notification]
             (Some ProcessLookupError)
             eq_refl eq_refl ltac:(repeat constructor) eq_refl ltac:(repeat constructor)).
Defined.

(** C6 (scenario D).  When the spawn raises, that exception is the outcome of
    the run, and the spawn is all the run did: nothing is written to or read
    from a subprocess, and neither [terminate()] nor [wait()] is called. *)
Theorem spawn_failure (world : env) (e : exn) :
  spawn world = Some e ->
  list_notebooks world = (Raise e, [EvSpawn]).
Proof. intro H. unfold list_notebooks. rewrite H. reflexivity. Qed.

Lemma spawn_failure_witness :
  spawn (mkEnv (Some FileNotFoundError) chatty_server None) = Some FileNotFoundError /\
  list_notebooks (mkEnv (Some FileNotFoundError) chatty_server None) =
    (Raise FileNotFoundError, [EvSpawn]).
Proof.
  split; [reflexivity |].
  apply (spawn_failure (mkEnv (Some FileNotFoundError) chatty_server None)). reflexivity.
Defined.

(** C7.  For a reply whose [result] is an object: if the result has no
    [content], nothing is printed and the printing returns; if its content is
    a list of objects, the printing returns, one value is printed per item in
    the order of the items, and what is printed for an item is its [text], or
    the empty string when the item has no [text]. *)
Theorem content_and_text_defaults
        (fields result : list (string * value)) (p : pipes) :
  lookup "result" fields = Some (PDict result) ->
  (lookup "content" result = None ->
   print_content (PDict fields) p = (Ok tt, p, [])) /\
  (forall items,
     lookup "content" result = Some (PList items) ->
     Forall (fun item => is_dict item = true) items ->
     outcome (print_content (PDict fields) p) = Ok tt /\
     List.length (printed (events (print_content (PDict fields) p))) = List.length items /\
     forall i item_fields,
       nth_error items i = Some (PDict item_fields) ->
       nth_error (printed (events (print_content (PDict fields) p))) i =
       Some (match lookup "text" item_fields with
             | Some text => text
             | None => PStr ""
             end)).
Proof.
  intro Hr. split.
  - intro Hc. exact (print_content_no_content fields result p Hr Hc).
  - intros items Hc Hd.
    rewrite (print_content_items fields result items p Hr Hc Hd).
    cbn [outcome events fst snd]. rewrite printed_prints.
    split; [reflexivity |]. split; [apply length_map |].
    intros i item_fields Hi.
    rewrite nth_error_map, Hi. reflexivity.
Qed.

Lemma content_and_text_defaults_witness :
  lookup "result" sparse_reply = Some (PDict sparse_reply_result) /\
  print_content empty_result_reply (mkPipes [] []) = (Ok tt, mkPipes [] [], []) /\
  outcome (print_content (PDict sparse_reply) (mkPipes [] [])) = Ok tt /\
  nth_error (printed (events (print_content (PDict sparse_reply) (mkPipes [] [])))) 1 =
    Some (PStr "").
Proof.
  split; [reflexivity |]. split; [| split].
  - exact (proj1 (content_and_text_defaults
                    [("id", PInt 2); ("result", PDict [])] [] (mkPipes [] []) eq_refl)
                 eq_refl).
  - destruct (content_and_text_defaults sparse_reply sparse_reply_result (mkPipes [] [])
                eq_refl) as [_ H].
    destruct (H [PDict [("text", PStr "Notebook A")]; PDict [("type", PStr "text")]]
                eq_refl) as [Hok _]; [repeat constructor | exact Hok].
  - destruct (content_and_text_defaults sparse_reply sparse_reply_result (mkPipes [] [])
                eq_refl) as [_ H].
    destruct (H [PDict [("text", PStr "Notebook A")]; PDict [("type", PStr "text")]]
                eq_refl) as (_ & _ & Hnth); [repeat constructor |].
    exact (Hnth 1%nat [("type", PStr "text")] eq_refl).
Defined.

(** C8, as stated, fails: when the server wrote a line that is not JSON and
    has exited by the time the [finally] block runs, [terminate()] raises
    [ProcessLookupError]; that exception, not the decoder's, leaves the run,
    and [wait()] is not called. *)
Lemma decode_error_replaced :
  In (EvReadline (RdLine NotJson))
     (snd (list_notebooks (mkEnv None garbling_server (Some ProcessLookupError)))) /\
  fst (list_notebooks (mkEnv None garbling_server (Some ProcessLookupError))) =
    Raise ProcessLookupError /\
  count is_wait
    (snd (list_notebooks (mkEnv None garbling_server (Some ProcessLookupError)))) = 0%nat.
Proof.
  split; [| split; reflexivity].
  cbn. do 7 right. left. reflexivity.
Qed.

(** C8, amended.  A line that does not decode makes [read_msg] raise the
    decoder's exception.  In a run that read such a line, the read of that
    line is the last thing the [try] block did (nothing is read again,
    nothing more is written or printed), no read before it failed, and
    [terminate()] is called directly after it.  When [terminate()] returns,
    [wait()] follows and the decoder's exception is the outcome of the run;
    when [terminate()] raises, [wait()] is not called and the exception of
    [terminate()] is the outcome in place of the decoder's. *)
Theorem decode_error_propagates (world : env) (l : line) (e : exn) :
  spawn world = None ->
  decode_error l = Some e ->
  In (EvReadline (RdLine l)) (snd (list_notebooks world)) ->
  (forall ds rest,
     read_msg (mkPipes ds (l :: rest)) =
     (Raise e, mkPipes ds rest, [EvReadline (RdLine l)])) /\
  fst (list_notebooks world) =
    match terminate world with None => Raise e | Some e' => Raise e' end /\
  exists before,
    snd (list_notebooks world) =
      before ++ EvReadline (RdLine l) ::
      match terminate world with
      | None => [EvTerminate; EvWait]
      | Some _ => [EvTerminate]
      end /\
    Forall (fun ev => is_bad_read ev = false) before.
Proof.
  intros Hs He Hin.
  assert (Hbad : is_bad_read (EvReadline (RdLine l)) = true)
    by (cbn; rewrite (decode_error_read_error l e He); reflexivity).
  split.
  { intros ds rest. destruct l; cbn in He; try discriminate;
      injection He as <-; reflexivity. }
  rewrite (list_notebooks_spawned world Hs) in *. cbn [fst snd] in *.
  assert (Hc : forall ev, In ev (cleanup_events (terminate world)) -> is_bad_read ev = false).
  { intros ev. destruct (terminate world); cbn; intuition (subst; reflexivity). }
  destruct (exchange_decoded (server world)) as [Hall | (pre & l' & e' & Ht & Hpre & He' & Hst)].
  - exfalso. destruct Hin as [Hin | Hin]; [discriminate Hin |].
    apply in_app_or in Hin. destruct Hin as [Hin | Hin].
    + rewrite Forall_forall in Hall. specialize (Hall _ Hin). congruence.
    + specialize (Hc _ Hin). congruence.
  - assert (Hl : l' = l).
    { destruct Hin as [Hin | Hin]; [discriminate Hin |].
      apply in_app_or in Hin. destruct Hin as [Hin | Hin].
      - rewrite Ht in Hin. apply in_app_or in Hin. destruct Hin as [Hin | Hin].
        + rewrite Forall_forall in Hpre. specialize (Hpre _ Hin). congruence.
        + destruct Hin as [Hin | []]. congruence.
      - specialize (Hc _ Hin). congruence. }
    subst l'. rewrite (decode_error_read_error l e He) in He'.
    assert (e' = e) by congruence. subst e'.
    apply status_of_raised in Hst. rewrite Hst. split.
    + destruct (terminate world); reflexivity.
    + exists (EvSpawn :: pre). split.
      * rewrite Ht, <- app_assoc. destruct (terminate world); reflexivity.
      * constructor; [reflexivity | exact Hpre].
Qed.

Lemma decode_error_propagates_witness :
  fst (list_notebooks (mkEnv None garbling_server None)) = Raise JSONDecodeError /\
  fst (list_notebooks (mkEnv None garbling_server (Some ProcessLookupError))) =
    Raise ProcessLookupError /\
  exists before,
    snd (list_notebooks (mkEnv None garbling_server None)) =
      before ++ EvReadline (RdLine NotJson) :: [EvTerminate; EvWait] /\
    Forall (fun ev => is_bad_read ev = false) before.
Proof.
  assert (Hin : forall gone,
             In (EvReadline (RdLine NotJson))
                (snd (list_notebooks (mkEnv None garbling_server gone)))).
  { intros [e |]; cbn; do 7 right; left; reflexivity. }
  destruct (decode_error_propagates (mkEnv None garbling_server None) NotJson
              JSONDecodeError eq_refl eq_refl (Hin None)) as (_ & Ho & Hlog).
  destruct (decode_error_propagates (mkEnv None garbling_server (Some ProcessLookupError))
              NotJson JSONDecodeError eq_refl eq_refl (Hin (Some ProcessLookupError)))
    as (_ & Ho' & _).
  split; [exact Ho |]. split; [exact Ho' | exact Hlog].
Defined.



(** C10, as stated, fails: when the server has died, the stream is at
    end-of-file before any line with id 1, and the drain after the
    [tools/call] request raises; the second loop is then not entered (the
    only read of the run is the one that found end-of-file) and the run ends
    with the exception of the drain. *)
Lemma second_loop_not_entered :
  list_notebooks (mkEnv None dead_server None) =
  (Raise ConnectionResetError,
   [EvSpawn; EvWrite init_request; EvDrain; EvReadline RdEof;
    EvWrite tool_request; EvDrain; EvTerminate; EvWait]) /\
  count is_read (snd (list_notebooks (mkEnv None dead_server None))) = 1%nat.
Proof. split; reflexivity. Qed.

(** C10, amended.  When the output stream ends before any line with id 1 (the
    lines before the end being other messages), the run does not stop there:
    the [tools/call] request with id 2 is written and drained.  When that
    drain returns, the second loop reads (and finds the stream at
    end-of-file) and the [try] block returns; when that drain raises, the
    second loop is not entered and the exception of the drain leaves the
    [try] block.  The cleanup follows in both cases. *)
Theorem eof_before_handshake (ds : list (option exn)) (pre : list line)
        (gone : option exn) :
  hd None ds = None ->
  Forall (fun l => is_other_message 1 l = true) pre ->
  list_notebooks (mkEnv None (mkPipes ds pre) gone) =
  (match gone with
   | Some e' => Raise e'
   | None => match hd None (tl ds) with None => Ok tt | Some e => Raise e end
   end,
   EvSpawn :: EvWrite init_request :: EvDrain :: reads pre ++
   EvReadline RdEof :: EvWrite tool_request :: EvDrain ::
   match hd None (tl ds) with None => [EvReadline RdEof] | Some _ => [] end ++
   match gone with None => [EvTerminate; EvWait] | Some _ => [EvTerminate] end).
Proof.
  intros Hd1 Hpre. rewrite list_notebooks_spawned by reflexivity. cbn [server terminate].
  rewrite (exchange_no_handshake ds pre Hd1 Hpre).
  cbn [outcome events fst snd app]. rewrite <- app_assoc. cbn [app].
  destruct gone; reflexivity.
Qed.

Lemma eof_before_handshake_witness :
  list_notebooks (mkEnv None (mkPipes [] [Json log_notification; Json reply_2]) None) =
  (Ok tt,
   EvSpawn :: EvWrite init_request :: EvDrain ::
   reads [Json log_notification; Json reply_2] ++
   [EvReadline RdEof; EvWrite tool_request; EvDrain; EvReadline RdEof;
    EvTerminate; EvWait]) /\
  list_notebooks (mkEnv None dead_server (Some ProcessLookupError)) =
  (Raise ProcessLookupError,
   [EvSpawn; EvWrite init_request; EvDrain; EvReadline RdEof;
    EvWrite tool_request; EvDrain; EvTerminate]).
Proof.
  split.
  - apply (eof_before_handshake [] [Json log_notification; Json reply_2] None eq_refl).
    repeat constructor.
  - apply (eof_before_handshake [None; Some ConnectionResetError] [] (Some ProcessLookupError)
             eq_refl).
    constructor.
Defined.

(** ** Further properties of the script *)

(** *** The read loop *)

(** X1.  The read loop only reads: its log holds nothing but [readline()]
    calls, at most one more than there are lines on the stream, and it
    leaves the outcomes of the drains to come untouched. *)
Theorem await_response_only_reads (n : Z) (p : pipes) :
  Forall (fun e => is_read e = true) (events (await_response n p)) /\
  (List.length (events (await_response n p)) <= S (List.length (stdout p)))%nat /\
  drains (remaining (await_response n p)) = drains p.
Proof.
  destruct p as [ds lines]. cbn [stdout drains].
  induction lines as [| l rest IH].
  - rewrite await_response_nil. cbn. repeat split; repeat constructor.
  - rewrite await_response_cons.
    destruct (await_response n (mkPipes ds rest)) as [[r q] t].
    cbn [events remaining fst snd] in IH. destruct IH as (Hr & Hl & Hd).
    destruct (verdict n l) as [[r0 |] | e |]; cbn [events remaining fst snd drains].
    + repeat split; [repeat constructor | cbn; apply le_n_S, Nat.le_0_l].
    + repeat split; [constructor; [reflexivity | exact Hr] | | exact Hd].
      cbn [List.length]. apply le_n_S. exact Hl.
    + repeat split; [repeat constructor | cbn; apply le_n_S, Nat.le_0_l].
    + repeat split; [repeat constructor | cbn; apply le_n_S, Nat.le_0_l].
Qed.

(** X2.  A line that decodes to a value Python takes as false (an empty
    object, [null], [0], [false], an empty string or list) ends the loop just
    as end-of-file does: the loop returns absent and the lines behind it stay
    unread. *)
Theorem await_response_falsy (n : Z) (ds : list (option exn))
        (pre : list line) (v : value) (rest : list line) :
  Forall (fun l => is_other_message n l = true) pre ->
  truthy v = false ->
  await_response n (mkPipes ds (pre ++ Json v :: rest)) =
  (Ok None, mkPipes ds rest, reads pre ++ [EvReadline (RdLine (Json v))]).
Proof.
  intros Hpre Hv. rewrite (await_response_skip n ds pre _ Hpre).
  rewrite await_response_cons. cbn [verdict]. rewrite Hv. reflexivity.
Qed.

Lemma await_response_falsy_witness :
  await_response 1 (mkPipes [] ([Json log_notification] ++ Json PNone :: [Json reply_1])) =
  (Ok None, mkPipes [] [Json reply_1],
   reads [Json log_notification] ++ [EvReadline (RdLine (Json PNone))]).
Proof.
  apply (await_response_falsy 1 [] [Json log_notification] PNone [Json reply_1]).
  - repeat constructor.
  - reflexivity.
Defined.

(** X3.  A line that decodes to a value that is not an object and that Python
    takes as true (a number other than 0, [true], a non-empty string or list)
    makes the loop raise [AttributeError] at [resp.get]; the lines behind it
    stay unread. *)
Theorem await_response_not_object (n : Z) (ds : list (option exn))
        (pre : list line) (v : value) (rest : list line) :
  Forall (fun l => is_other_message n l = true) pre ->
  truthy v = true ->
  is_dict v = false ->
  await_response n (mkPipes ds (pre ++ Json v :: rest)) =
  (Raise AttributeError, mkPipes ds rest, reads pre ++ [EvReadline (RdLine (Json v))]).
Proof.
  intros Hpre Hv Hd. rewrite (await_response_skip n ds pre _ Hpre).
  rewrite await_response_cons. cbn [verdict]. rewrite Hv.
  destruct v; try discriminate Hd; reflexivity.
Qed.

Lemma await_response_not_object_witness :
  await_response 2 (mkPipes [] ([Json reply_1] ++ Json (PStr "ready") :: [Json reply_2])) =
  (Raise AttributeError, mkPipes [] [Json reply_2],
   reads [Json reply_1] ++ [EvReadline (RdLine (Json (PStr "ready")))]).
Proof.
  apply (await_response_not_object 2 [] [Json reply_1] (PStr "ready") [Json reply_2]).
  - repeat constructor.
  - reflexivity.
  - reflexivity.
Defined.

(** *** Failing writes *)

(** X4.  When the drain after the [initialize] request raises, nothing is
    read, the [tools/call] request is not written, and [terminate()] is
    called next.  When [terminate()] returns, [wait()] follows and the
    exception of the drain is the outcome of the run; when [terminate()]
    raises, [wait()] is not called and the exception of [terminate()] is the
    outcome. *)
Theorem first_drain_fails (e : exn) (ds : list (option exn)) (lines : list line)
        (gone : option exn) :
  list_notebooks (mkEnv None (mkPipes (Some e :: ds) lines) gone) =
  (match gone with None => Raise e | Some e' => Raise e' end,
   EvSpawn :: EvWrite init_request :: EvDrain ::
   match gone with None => [EvTerminate; EvWait] | Some _ => [EvTerminate] end).
Proof. destruct gone; reflexivity. Qed.

(** X5.  When the handshake completes and the drain after the [tools/call]
    request raises, the second loop is not entered (nothing is read after the
    reply to id 1), nothing is printed, and [terminate()] is called next.
    When [terminate()] returns, [wait()] follows and the exception of the
    drain is the outcome of the run; when [terminate()] raises, [wait()] is
    not called and the exception of [terminate()] is the outcome. *)
Theorem second_drain_fails (e : exn) (ds : list (option exn))
        (pre : list line) (h : value) (rest : list line) (gone : option exn) :
  hd None ds = None ->
  hd None (tl ds) = Some e ->
  Forall (fun l => is_other_message 1 l = true) pre ->
  has_id 1 h = true ->
  list_notebooks (mkEnv None (mkPipes ds (pre ++ Json h :: rest)) gone) =
  (match gone with None => Raise e | Some e' => Raise e' end,
   EvSpawn :: EvWrite init_request :: EvDrain :: reads pre ++
   EvReadline (RdLine (Json h)) :: EvWrite tool_request :: EvDrain ::
   match gone with None => [EvTerminate; EvWait] | Some _ => [EvTerminate] end).
Proof.
  intros Hd1 Hd2 Hpre Hh. rewrite list_notebooks_spawned by reflexivity.
  cbn [server terminate].
  rewrite (exchange_second_drain ds pre h rest e Hd1 Hd2 Hpre Hh).
  cbn [outcome events fst snd app]. rewrite <- app_assoc. cbn [app].
  destruct gone; reflexivity.
Qed.

Lemma second_drain_fails_witness :
  list_notebooks
    (mkEnv None (mkPipes [None; Some ConnectionResetError]
                         ([Json log_notification] ++ Json reply_1 :: [Json reply_2]))
           None) =
  (Raise ConnectionResetError,
   EvSpawn :: EvWrite init_request :: EvDrain :: reads [Json log_notification] ++
   EvReadline (RdLine (Json reply_1)) :: EvWrite tool_request :: EvDrain ::
   [EvTerminate; EvWait]) /\
  list_notebooks
    (mkEnv None (mkPipes [None; Some ConnectionResetError]
                         ([Json log_notification] ++ Json reply_1 :: [Json reply_2]))
           (Some ProcessLookupError)) =
  (Raise ProcessLookupError,
   EvSpawn :: EvWrite init_request :: EvDrain :: reads [Json log_notification] ++
   EvReadline (RdLine (Json reply_1)) :: EvWrite tool_request :: EvDrain ::
   [EvTerminate]).
Proof.
  split.
  - apply (second_drain_fails ConnectionResetError [None; Some ConnectionResetError]
             [Json log_notification] reply_1 [Json reply_2] None
             eq_refl eq_refl ltac:(repeat constructor) eq_refl).
  - apply (second_drain_fails ConnectionResetError [None; Some ConnectionResetError]
             [Json log_notification] reply_1 [Json reply_2] (Some ProcessLookupError)
             eq_refl eq_refl ltac:(repeat constructor) eq_refl).
Defined.

(** *** The reply to the tool call *)

(** X6.  When the handshake completes, both drains return, and a line that
    [readline()] returns carries a reply with id 2, the run is the printing
    of that reply between the exchange and the cleanup: its log is the two
    requests with the lines read up to the reply, then whatever the printing
    printed, then the cleanup; its outcome is the outcome of the printing
    when [terminate()] returns, and the exception of [terminate()] when it
    raises.  Lines behind the reply have no effect. *)
Theorem run_with_reply (ds : list (option exn)) (pre1 : list line) (h : value)
        (pre2 : list line) (d : value) (rest : list line) (gone : option exn) :
  hd None ds = None ->
  hd None (tl ds) = None ->
  Forall (fun l => is_other_message 1 l = true) pre1 ->
  has_id 1 h = true ->
  Forall (fun l => is_other_message 2 l = true) pre2 ->
  has_id 2 d = true ->
  list_notebooks
    (mkEnv None (mkPipes ds (pre1 ++ Json h :: pre2 ++ Json d :: rest)) gone) =
  (match gone with
   | None => outcome (print_content d (mkPipes [] []))
   | Some e => Raise e
   end,
   EvSpawn :: EvWrite init_request :: EvDrain :: reads pre1 ++
   EvReadline (RdLine (Json h)) :: EvWrite tool_request :: EvDrain :: reads pre2 ++
   EvReadline (RdLine (Json d)) :: events (print_content d (mkPipes [] [])) ++
   match gone with None => [EvTerminate; EvWait] | Some _ => [EvTerminate] end).
Proof.
  intros Hd1 Hd2 H1 Hh H2 Hd.
  exact (run_reply ds pre1 h pre2 d rest gone Hd1 Hd2 H1 Hh H2 Hd).
Qed.

Lemma run_with_reply_witness :
  list_notebooks
    (mkEnv None (mkPipes [] ([Json log_notification] ++ Json reply_1 ::
                             [Json reply_1] ++ Json reply_2 :: [NotJson]))
           None) =
  (outcome (print_content reply_2 (mkPipes [] [])),
   EvSpawn :: EvWrite init_request :: EvDrain :: reads [Json log_notification] ++
   EvReadline (RdLine (Json reply_1)) :: EvWrite tool_request :: EvDrain ::
   reads [Json reply_1] ++
   EvReadline (RdLine (Json reply_2)) :: events (print_content reply_2 (mkPipes [] [])) ++
   [EvTerminate; EvWait]).
Proof.
  apply (run_with_reply [] [Json log_notification] reply_1 [Json reply_1] reply_2 [NotJson]
           None eq_refl eq_refl).
  - repeat constructor.
  - reflexivity.
  - repeat constructor.
  - reflexivity.
Defined.

Lemma print_items_until (good : list value) (bad : value) (rest : list value) (p : pipes) :
  Forall (fun item => is_dict item = true) good ->
  is_dict bad = false ->
  for_each (good ++ bad :: rest)
           (fun item => text <- get item "text" (PStr "") ;; emit (EvPrint text)) p =
  (Raise AttributeError, p, map (fun item => EvPrint (text_of item)) good).
Proof.
  intros Hgood Hbad. induction Hgood as [| item good Hd _ IH].
  - destruct bad; try discriminate Hbad; reflexivity.
  - destruct item; try discriminate Hd.
    cbn [app for_each map]. unfold bind at 1.
    replace ((text <- get (PDict fields) "text" (PStr "") ;; emit (EvPrint text)) p)
      with (@Ok unit tt, p, [EvPrint (text_of (PDict fields))])
      by (unfold bind, get, text_of; destruct (lookup "text" fields); reflexivity).
    rewrite IH. reflexivity.
Qed.

(** X7.  When a content item is not an object, the texts of the items before
    it have been printed, in order, when [item.get] raises [AttributeError];
    nothing of the items behind it is printed. *)
Theorem print_content_item_not_object
        (fields result : list (string * value))
        (good : list value) (bad : value) (rest : list value) (p : pipes) :
  lookup "result" fields = Some (PDict result) ->
  lookup "content" result = Some (PList (good ++ bad :: rest)) ->
  Forall (fun item => is_dict item = true) good ->
  is_dict bad = false ->
  print_content (PDict fields) p =
  (Raise AttributeError, p, map (fun item => EvPrint (text_of item)) good).
Proof.
  intros H1 H2 Hgood Hbad. unfold print_content.
  unfold bind at 1. unfold get at 1. rewrite H1. cbn [ret].
  unfold bind at 1. unfold get at 1. rewrite H2. cbn [ret].
  unfold bind at 1. cbn [iterate iter ret].
  rewrite (print_items_until good bad rest p Hgood Hbad). reflexivity.
Qed.

Lemma print_content_item_not_object_witness :
  print_content (PDict mixed_content_reply) (mkPipes [] []) =
  (Raise AttributeError, mkPipes [] [],
   map (fun item => EvPrint (text_of item)) [PDict [("text", PStr "Notebook A")]]).
Proof.
  apply (print_content_item_not_object
           mixed_content_reply mixed_content_reply_result
           [PDict [("text", PStr "Notebook A")]]
           (PStr "Notebook B")
           [PDict [("text", PStr "Notebook C")]]).
  - reflexivity.
  - reflexivity.
  - repeat constructor.
  - reflexivity.
Defined.

(** X8.  When the [result] of the reply is present and is not an object (it
    is [null], a number, a string, a list), [result.get] raises
    [AttributeError] and nothing is printed. *)
Theorem print_content_result_not_object
        (fields : list (string * value)) (result : value) (p : pipes) :
  lookup "result" fields = Some result ->
  is_dict result = false ->
  print_content (PDict fields) p = (Raise AttributeError, p, []).
Proof.
  intros H1 Hd. unfold print_content.
  unfold bind at 1. unfold get at 1. rewrite H1. cbn [ret].
  destruct result; try discriminate Hd; reflexivity.
Qed.

Lemma print_content_result_not_object_witness :
  print_content (PDict [("id", PInt 2); ("result", PNone)]) (mkPipes [] []) =
  (Raise AttributeError, mkPipes [] [], []).
Proof.
  apply (print_content_result_not_object [("id", PInt 2); ("result", PNone)] PNone).
  - reflexivity.
  - reflexivity.
Defined.

(** X9.  What the [for] loop does with a [content] that is not a list.  A
    content that is [null], a boolean or a number is not iterable: [TypeError],
    nothing printed.  A content that is a string or an object is iterated by
    characters or by keys, which are strings: if it is empty, nothing is
    printed and the printing returns; if it is not, [item.get] raises
    [AttributeError] on the first of them and nothing is printed. *)
Theorem print_content_not_a_list
        (fields result : list (string * value)) (content : value) (p : pipes) :
  lookup "result" fields = Some (PDict result) ->
  lookup "content" result = Some content ->
  (forall items, content <> PList items) ->
  print_content (PDict fields) p =
  (match content with
   | PStr _ | PDict _ => if truthy content then Raise AttributeError else Ok tt
   | _ => Raise TypeError
   end, p, []).
Proof.
  intros H1 H2 Hl. unfold print_content.
  unfold bind at 1. unfold get at 1. rewrite H1. cbn [ret].
  unfold bind at 1. unfold get at 1. rewrite H2. cbn [ret].
  destruct content as [| b | z | f | s | items | d]; try reflexivity.
  - destruct s; reflexivity.
  - contradiction (Hl items). reflexivity.
  - destruct d; reflexivity.
Qed.

Lemma print_content_not_a_list_witness :
  print_content (PDict [("id", PInt 2); ("result", PDict [("content", PStr "Notebook A")])])
                (mkPipes [] []) =
  (Raise AttributeError, mkPipes [] [], []) /\
  print_content (PDict [("id", PInt 2); ("result", PDict [("content", PNone)])])
                (mkPipes [] []) =
  (Raise TypeError, mkPipes [] [], []) /\
  print_content (PDict [("id", PInt 2); ("result", PDict [("content", PDict [])])])
                (mkPipes [] []) =
  (Ok tt, mkPipes [] [], []).
Proof.
  split; [| split].
  - apply (print_content_not_a_list
             [("id", PInt 2); ("result", PDict [("content", PStr "Notebook A")])]
             [("content", PStr "Notebook A")] (PStr "Notebook A"));
      [reflexivity | reflexivity | discriminate].
  - apply (print_content_not_a_list
             [("id", PInt 2); ("result", PDict [("content", PNone)])]
             [("content", PNone)] PNone);
      [reflexivity | reflexivity | discriminate].
  - apply (print_content_not_a_list
             [("id", PInt 2); ("result", PDict [("content", PDict [])])]
             [("content", PDict [])] (PDict []));
      [reflexivity | reflexivity | discriminate].
Defined.

(** *** What every run does with the pipes *)

Lemma bind_events {A B} (m : M A) (k : A -> M B) (p : pipes) :
  events (bind m k p) =
  events (m p) ++
  match outcome (m p) with
  | Ok a => events (k a (remaining (m p)))
  | _ => []
  end.
Proof.
  unfold bind. destruct (m p) as [[r p1] t1]. cbn [outcome remaining events fst snd].
  destruct r as [a | e |]; cbn [events snd]; [| rewrite app_nil_r; reflexivity ..].
  destruct (k a p1) as [[r2 p2] t2]. reflexivity.
Qed.

Lemma lines_read_app (t1 t2 : list event) :
  lines_read (t1 ++ t2) = lines_read t1 ++ lines_read t2.
Proof.
  induction t1 as [| e t1 IH]; [reflexivity |].
  destruct e as [| | | [| l] | | |]; cbn; rewrite IH; reflexivity.
Qed.

Lemma lines_read_cleanup (gone : option exn) : lines_read (cleanup_events gone) = [].
Proof. destruct gone; reflexivity. Qed.

Lemma conserves_bind {A B} (m : M A) (k : A -> M B) :
  conserves m -> (forall a, conserves (k a)) -> conserves (bind m k).
Proof.
  intros Hm Hk p. specialize (Hm p). unfold bind.
  destruct (m p) as [[r p1] t1]. cbn [events remaining fst snd] in Hm.
  destruct r as [a | e |]; try exact Hm.
  specialize (Hk a p1). destruct (k a p1) as [[r2 p2] t2].
  cbn [events remaining fst snd] in *.
  rewrite lines_read_app, <- app_assoc, Hk. exact Hm.
Qed.

Lemma conserves_send_msg (msg : value) : conserves (send_msg msg).
Proof. intros [[| [e |] ds] lines]; reflexivity. Qed.

Lemma conserves_await_response (n : Z) : conserves (await_response n).
Proof.
  intros [ds lines]. induction lines as [| l rest IH].
  - reflexivity.
  - rewrite await_response_cons.
    destruct (verdict n l) as [[r0 |] | e |]; try reflexivity.
    destruct (await_response n (mkPipes ds rest)) as [[r q] t].
    cbn [events remaining fst snd stdout lines_read app] in *. rewrite IH. reflexivity.
Qed.

Lemma print_content_no_reads (resp : value) (p : pipes) :
  lines_read (events (print_content resp p)) = [].
Proof.
  apply (respects_print_content (fun _ t => lines_read t = [])).
  - reflexivity.
  - intros t1 s t2 H1 H2. rewrite lines_read_app, H1, H2. reflexivity.
  - reflexivity.
Qed.

Lemma conserves_print_content (resp : value) : conserves (print_content resp).
Proof.
  intro p. rewrite print_content_no_reads.
  destruct (steady_print_content resp) as (r & t & H). rewrite (H p). reflexivity.
Qed.

Lemma conserves_exchange : conserves exchange.
Proof.
  unfold exchange, read_tool_response.
  apply conserves_bind; [apply conserves_send_msg | intros _].
  apply conserves_bind; [apply conserves_await_response | intros _].
  apply conserves_bind; [apply conserves_send_msg | intros _].
  apply conserves_bind; [apply conserves_await_response | intros [r |]].
  - apply conserves_print_content.
  - intro p. reflexivity.
Qed.

(** X10.  In every run the lines read, in the order of the reads, are an
    initial segment of the lines the server wrote: no line is skipped, read
    twice or read out of order, by either loop. *)
Theorem reads_are_a_prefix (world : env) :
  spawn world = None ->
  exists unread,
    stdout (server world) = lines_read (snd (list_notebooks world)) ++ unread.
Proof.
  intro Hs. rewrite (list_notebooks_spawned world Hs). cbn [snd lines_read].
  exists (stdout (remaining (exchange (server world)))).
  rewrite lines_read_app, lines_read_cleanup, app_nil_r.
  symmetry. apply conserves_exchange.
Qed.

Lemma reads_are_a_prefix_witness :
  spawn (mkEnv None chatty_server None) = None /\
  exists unread,
    stdout (server (mkEnv None chatty_server None)) =
    lines_read (snd (list_notebooks (mkEnv None chatty_server None))) ++ unread.
Proof.
  split; [reflexivity |].
  apply (reads_are_a_prefix (mkEnv None chatty_server None)). reflexivity.
Defined.

Lemma sends_app (t1 t2 : list event) : sends (t1 ++ t2) = sends t1 ++ sends t2.
Proof. apply filter_app. Qed.

Lemma sends_cleanup (gone : option exn) : sends (cleanup_events gone) = [].
Proof. destruct gone; reflexivity. Qed.

Lemma send_msg_sends (msg : value) (p : pipes) :
  sends (events (send_msg msg p)) = [EvWrite msg; EvDrain].
Proof. destruct p as [[| [e |] ds] lines]; reflexivity. Qed.

Lemma await_response_no_sends (n : Z) (p : pipes) :
  sends (events (await_response n p)) = [].
Proof.
  apply (respects_await_response (fun _ t => sends t = [])).
  - intros t1 s t2 H1 H2. rewrite sends_app, H1, H2. reflexivity.
  - reflexivity.
  - reflexivity.
Qed.

Lemma print_content_no_sends (resp : value) (p : pipes) :
  sends (events (print_content resp p)) = [].
Proof.
  apply (respects_print_content (fun _ t => sends t = [])).
  - reflexivity.
  - intros t1 s t2 H1 H2. rewrite sends_app, H1, H2. reflexivity.
  - reflexivity.
Qed.

Lemma read_tool_response_no_sends (p : pipes) :
  sends (events (read_tool_response p)) = [].
Proof.
  unfold read_tool_response. rewrite bind_events, sends_app, await_response_no_sends.
  destruct (outcome (await_response 2 p)) as [[r |] | e |]; try reflexivity.
  apply print_content_no_sends.
Qed.

(** X11.  In every run the script writes the [initialize] request first and
    drains, and then at most the [tools/call] request, and drains: the writes
    and drains of the run are exactly one of these two sequences.  No request
    is written twice, and none is written without a drain after it. *)
Theorem write_discipline (world : env) :
  spawn world = None ->
  sends (snd (list_notebooks world)) = [EvWrite init_request; EvDrain] \/
  sends (snd (list_notebooks world)) =
    [EvWrite init_request; EvDrain; EvWrite tool_request; EvDrain].
Proof.
  intro Hs. rewrite (list_notebooks_spawned world Hs). cbn [snd].
  change (EvSpawn :: ?t ++ ?c) with ([EvSpawn] ++ t ++ c).
  rewrite !sends_app, sends_cleanup, app_nil_r.
  replace (sends [EvSpawn]) with (@nil event) by reflexivity. cbn [app].
  unfold exchange. rewrite bind_events, sends_app, send_msg_sends.
  destruct (outcome (send_msg init_request (server world))); [| left; reflexivity ..].
  rewrite bind_events, sends_app, await_response_no_sends.
  destruct (outcome (await_response 1 _)); [| left; reflexivity ..].
  rewrite bind_events, sends_app, send_msg_sends.
  destruct (outcome (send_msg tool_request _)); [| right; reflexivity ..].
  rewrite read_tool_response_no_sends. right. reflexivity.
Qed.

Lemma write_discipline_witness :
  spawn (mkEnv None broken_server None) = None /\
  (sends (snd (list_notebooks (mkEnv None broken_server None))) =
     [EvWrite init_request; EvDrain] \/
   sends (snd (list_notebooks (mkEnv None broken_server None))) =
     [EvWrite init_request; EvDrain; EvWrite tool_request; EvDrain]).
Proof.
  split; [reflexivity |].
  apply (write_discipline (mkEnv None broken_server None)). reflexivity.
Defined.

(** *** What is printed, and when *)

Lemma send_msg_prints (msg : value) (p : pipes) :
  printed (events (send_msg msg p)) = [].
Proof. destruct p as [[| [e |] ds] lines]; reflexivity. Qed.

Lemma await_response_prints (n : Z) (p : pipes) :
  printed (events (await_response n p)) = [].
Proof.
  apply (respects_await_response (fun _ t => printed t = [])).
  - intros t1 s t2 H1 H2. rewrite printed_app, H1, H2. reflexivity.
  - reflexivity.
  - reflexivity.
Qed.

(** A response the loop returns is the line it read last. *)
Lemma await_response_returned (n : Z) (p : pipes) (v : value) :
  outcome (await_response n p) = Ok (Some v) ->
  has_id n v = true /\
  exists t, events (await_response n p) = t ++ [EvReadline (RdLine (Json v))].
Proof.
  destruct p as [ds lines]. induction lines as [| l rest IH].
  - discriminate.
  - rewrite await_response_cons. destruct (verdict n l) as [[[r |] |] | e |] eqn:V;
      cbn [outcome events fst snd]; try discriminate.
    + intro H. injection H as ->.
      destruct (verdict_found n l v V) as (-> & fields & i & -> & Hi & Hn).
      split; [cbn; rewrite Hi; exact Hn | exists []; reflexivity].
    + destruct (await_response n (mkPipes ds rest)) as [[r q] t].
      cbn [outcome events fst snd] in *. intro H.
      destruct (IH H) as (Hid & t' & ->). split; [exact Hid |].
      exists (EvReadline (RdLine l) :: t'). reflexivity.
Qed.

Lemma read_tool_response_prints (p : pipes) :
  printed (events (read_tool_response p)) <> [] ->
  exists before v after,
    events (read_tool_response p) = before ++ EvReadline (RdLine (Json v)) :: after /\
    has_id 2 v = true /\
    printed before = [].
Proof.
  unfold read_tool_response. rewrite bind_events.
  destruct (outcome (await_response 2 p)) as [[v |] | e |] eqn:E.
  - intros _. destruct (await_response_returned 2 p v E) as (Hid & t & Ht).
    exists t, v, (events (print_content v (remaining (await_response 2 p)))).
    split; [rewrite Ht, <- app_assoc; reflexivity |]. split; [exact Hid |].
    pose proof (await_response_prints 2 p) as Hp. rewrite Ht, printed_app in Hp.
    apply app_eq_nil in Hp. apply Hp.
  - cbn [ret events snd]. rewrite app_nil_r, await_response_prints. congruence.
  - rewrite app_nil_r, await_response_prints. congruence.
  - rewrite app_nil_r, await_response_prints. congruence.
Qed.

Lemma exchange_prints (p : pipes) :
  printed (events (exchange p)) <> [] ->
  exists before v after,
    events (exchange p) = before ++ EvReadline (RdLine (Json v)) :: after /\
    has_id 2 v = true /\
    printed before = [].
Proof.
  unfold exchange. rewrite bind_events.
  set (p1 := remaining (send_msg init_request p)).
  destruct (outcome (send_msg init_request p)) as [[] | e |].
  2, 3: rewrite app_nil_r, send_msg_prints; intro H; contradiction H; reflexivity.
  rewrite bind_events.
  set (p2 := remaining (await_response 1 p1)).
  destruct (outcome (await_response 1 p1)) as [r1 | e |].
  2, 3: rewrite app_nil_r, printed_app, send_msg_prints, await_response_prints;
    intro H; contradiction H; reflexivity.
  rewrite bind_events.
  set (p3 := remaining (send_msg tool_request p2)).
  destruct (outcome (send_msg tool_request p2)) as [[] | e |].
  2, 3: rewrite app_nil_r, !printed_app, !send_msg_prints, await_response_prints;
    intro H; contradiction H; reflexivity.
  rewrite !printed_app, !send_msg_prints, await_response_prints. cbn [app].
  intro H. destruct (read_tool_response_prints p3 H) as (b & v & after & Hev & Hid & Hb).
  rewrite Hev.
  exists (events (send_msg init_request p) ++ events (await_response 1 p1) ++
          events (send_msg tool_request p2) ++ b), v, after.
  split; [| split].
  - rewrite <- !app_assoc. reflexivity.
  - exact Hid.
  - rewrite !printed_app, !send_msg_prints, await_response_prints. exact Hb.
Qed.

(** X12.  A run prints only after it has read a reply with id 2: whenever
    something was printed, the log holds the read of an object line whose
    [id] equals 2, and nothing was printed before that read.  In particular
    nothing of the handshake reply or of a notification is ever printed. *)
Theorem prints_follow_reply (world : env) :
  printed (snd (list_notebooks world)) <> [] ->
  exists before v after,
    snd (list_notebooks world) = before ++ EvReadline (RdLine (Json v)) :: after /\
    has_id 2 v = true /\
    printed before = [].
Proof.
  unfold list_notebooks. destruct (spawn world) as [e |].
  - cbn. congruence.
  - rewrite session_eq. cbn [snd printed]. rewrite printed_app, printed_cleanup.
    rewrite app_nil_r. intro H.
    destruct (exchange_prints _ H) as (b & v & after & Hev & Hid & Hb).
    exists (EvSpawn :: b), v, (after ++ cleanup_events (terminate world)).
    split; [| split].
    + rewrite Hev, <- app_assoc. reflexivity.
    + exact Hid.
    + exact Hb.
Qed.

Lemma prints_follow_reply_witness :
  exists before v after,
    snd (list_notebooks (mkEnv None (mkPipes [] [Json reply_1; Json reply_2]) None)) =
      before ++ EvReadline (RdLine (Json v)) :: after /\
    has_id 2 v = true /\
    printed before = [].
Proof.
  apply (prints_follow_reply (mkEnv None (mkPipes [] [Json reply_1; Json reply_2]) None)).
  discriminate.
Defined.

(** X13.  The reply to id 1 only synchronises: with the same lines before and
    behind it, any two replies that carry id 1 give runs with the same
    outcome and the same output. *)
Theorem handshake_content_ignored
        (ds : list (option exn)) (pre : list line) (h h' : value) (rest : list line)
        (gone : option exn) :
  hd None ds = None ->
  hd None (tl ds) = None ->
  Forall (fun l => is_other_message 1 l = true) pre ->
  has_id 1 h = true ->
  has_id 1 h' = true ->
  fst (list_notebooks (mkEnv None (mkPipes ds (pre ++ Json h :: rest)) gone)) =
  fst (list_notebooks (mkEnv None (mkPipes ds (pre ++ Json h' :: rest)) gone)) /\
  printed (snd (list_notebooks (mkEnv None (mkPipes ds (pre ++ Json h :: rest)) gone))) =
  printed (snd (list_notebooks (mkEnv None (mkPipes ds (pre ++ Json h' :: rest)) gone))).
Proof.
  intros Hd1 Hd2 Hpre Hh Hh'. rewrite !list_notebooks_spawned by reflexivity.
  cbn [server terminate fst snd].
  rewrite (exchange_handshake ds pre h rest Hd1 Hd2 Hpre Hh),
    (exchange_handshake ds pre h' rest Hd1 Hd2 Hpre Hh').
  cbn [outcome events fst snd printed]. split; [reflexivity |].
  rewrite !printed_app. cbn [printed]. rewrite !printed_app. reflexivity.
Qed.

Lemma handshake_content_ignored_witness :
  fst (list_notebooks
         (mkEnv None (mkPipes [] ([Json log_notification] ++ Json reply_1 :: [Json reply_2]))
                None)) =
  fst (list_notebooks
         (mkEnv None (mkPipes [] ([Json log_notification] ++
                                  Json (PDict [("id", PInt 1); ("error", PStr "no")]) ::
                                  [Json reply_2]))
                None)) /\
  printed (snd (list_notebooks
         (mkEnv None (mkPipes [] ([Json log_notification] ++ Json reply_1 :: [Json reply_2]))
                None))) =
  printed (snd (list_notebooks
         (mkEnv None (mkPipes [] ([Json log_notification] ++
                                  Json (PDict [("id", PInt 1); ("error", PStr "no")]) ::
                                  [Json reply_2]))
                None))).
Proof.
  apply (handshake_content_ignored [] [Json log_notification] reply_1
           (PDict [("id", PInt 1); ("error", PStr "no")]) [Json reply_2] None
           eq_refl eq_refl).
  - repeat constructor.
  - reflexivity.
  - reflexivity.
Defined.
